(** * kati: shell command fast paths ([shellutil.go])

    A shallow embedding of the native handlers that replace recognised
    [$(shell ...)] commands: the rot13 filter, the find-cache backed
    directory queries, and the [date] formatter, with the compactors that
    build them.

    Go strings are [string]; a [[]byte] is a [list ascii], a byte's
    arithmetic being done on its code in [N] with the wrap-around of
    [uint8] written out.  Effects (the output writer, the evaluator and the
    find cache, the process-wide timestamp) are threaded through an explicit
    state by a small state-and-error monad.  The diagnostic [logf] calls and
    the buffer pool ([newBuf], [freeBuf]) change nothing a caller can see
    and are left out. *)

From Stdlib Require Import List String Ascii NArith ZArith Bool Lia Permutation.
Import ListNotations.

Local Open Scope string_scope.
Local Open Scope list_scope.

(** ** Bytes *)

Definition bytes := list ascii.

Definition bytes_of_string (s : string) : bytes := list_ascii_of_string s.
Definition string_of_bytes (b : bytes) : string := string_of_list_ascii b.

(** [uint8] addition and subtraction. *)
Definition byte_add (b : ascii) (n : N) : ascii :=
  ascii_of_N ((N_of_ascii b + n) mod 256).

Definition byte_sub (b : ascii) (n : N) : ascii :=
  ascii_of_N ((N_of_ascii b + 256 - n mod 256) mod 256).

Definition byte_le (a b : ascii) : bool := (N_of_ascii a <=? N_of_ascii b)%N.
Definition byte_gt (a b : ascii) : bool := (N_of_ascii b <? N_of_ascii a)%N.

(** The constant expression ['x' - 'y'] of the source, evaluated at
    compile time on untyped constants. *)
Definition char_diff (x y : ascii) : N := (N_of_ascii x - N_of_ascii y)%N.

(** ** rot13 *)

Module Rot13.

(** The body of the loop of [rot13], for one byte [b]. *)
Definition rot13_byte (b : ascii) : ascii :=
  if byte_le "a" b && byte_le b "z" then
    let b := byte_add b (char_diff "n" "a") in
    if byte_gt b "z" then byte_sub b (char_diff "z" "a" + 1) else b
  else if byte_le "A" b && byte_le b "Z" then
    let b := byte_add b (char_diff "N" "A") in
    if byte_gt b "Z" then byte_sub b (char_diff "Z" "A" + 1) else b
  else b.

(** [rot13] overwrites every [buf[i]] with the rotated byte. *)
Definition rot13 (buf : bytes) : bytes := map rot13_byte buf.

Definition is_lower (b : ascii) : bool := byte_le "a" b && byte_le b "z".
Definition is_upper (b : ascii) : bool := byte_le "A" b && byte_le b "Z".
Definition is_letter (b : ascii) : bool := is_lower b || is_upper b.

End Rot13.

(** ** Library functions of [strings] *)

(** [strings.Contains(s, substr)]: [substr] occurs somewhere in [s]. *)
Fixpoint Contains (s substr : string) : bool :=
  prefix substr s ||
  match s with
  | EmptyString => false
  | String _ s' => Contains s' substr
  end.

(** [strings.Replace(s, old, new, -1)]: every non-overlapping instance of
    [old], found from the left, becomes [new].  [skip] counts the bytes of
    an instance just replaced that are still to be passed over.  With an
    empty [old] the library inserts [new] before every rune and at the end;
    that case is written here for one-byte runes. *)
Fixpoint Replace_from (skip : nat) (s old new : string) : string :=
  match s with
  | EmptyString => EmptyString
  | String c s' =>
      match skip with
      | S k => Replace_from k s' old new
      | O =>
          if prefix old s
          then new ++ Replace_from (length old - 1) s' old new
          else String c (Replace_from 0 s' old new)
      end
  end.

Fixpoint Replace_empty (s new : string) : string :=
  match s with
  | EmptyString => new
  | String c s' => new ++ String c (Replace_empty s' new)
  end.

Definition Replace (s old new : string) : string :=
  match old with
  | EmptyString => Replace_empty s new
  | _ => Replace_from 0 s old new
  end.

(** ** Values of the expression layer *)

Set Warnings "-register-all".

(** Modelled from the spec: the unresolved values a template captures are
    declared outside [shellutil.go].  A [literal] is a string; a variable
    slot captures a variable reference, either a [paramref] (an integer
    index) or a [*varref] (a pointer, kept here as the address of the
    object it points to); an [expr] is a slice of values. *)
Inductive Value : Type :=
| literal (s : string)
| paramref (n : Z)
| varref (p : nat)
| expr (vs : list Value).

(** [a == b] on two interface values: the dynamic types must agree, then
    strings compare by content, integers by value and pointers by address.
    Two slices are not comparable: the comparison panics ([None]). *)
Definition Value_eq (a b : Value) : option bool :=
  match a, b with
  | literal s, literal t => Some (String.eqb s t)
  | paramref n, paramref m => Some (Z.eqb n m)
  | varref p, varref q => Some (Nat.eqb p q)
  | expr _, expr _ => None
  | _, _ => Some false
  end.

(** ** Outcomes *)

(** What a Go call leaves behind: a value with a [nil] error, a non-nil
    error, or a run-time panic (an index out of range, an uncomparable
    comparison). *)
Inductive result (Er A : Type) : Type :=
| Ok (a : A)
| Err (e : Er)
| Panic.
Arguments Ok {Er A} a.
Arguments Err {Er A} e.
Arguments Panic {Er A}.

(** ** The date directives *)

(** The entries of the map [shellDateFormatRef], as written. *)
Definition shellDateFormatRef : list (string * string) :=
  [ ("%Y", "2006");
    ("%m", "01");
    ("%d", "02");
    ("%H", "15");
    ("%M", "04");
    ("%S", "05");
    ("%b", "Jan");
    ("%k", "15") ].

(** The loop [for k, v := range shellDateFormatRef] of [compactShellDate],
    visiting the entries in the order [range_order]: Go leaves the order of
    a map's iteration unspecified, so it is an argument. *)
Definition shellDateReplace (range_order : list (string * string))
    (tfstr : string) : string :=
  fold_left (fun tfstr kv => Replace tfstr (fst kv) (snd kv)) range_order tfstr.

(** [range_order] is one of the orders the run time may pick. *)
Definition is_range_order (range_order : list (string * string)) : Prop :=
  Permutation shellDateFormatRef range_order.

(** The two-character directive [%d]. *)
Definition directive (d : ascii) : string := String "%" (String d EmptyString).

(** The token a table gives for the directive [%d], if it has one. *)
Definition directive_token_in (table : list (string * string)) (d : ascii)
    : option string :=
  option_map snd (find (fun kv => String.eqb (fst kv) (directive d)) table).

(** One pass over the format, in which every occurrence of a directive of
    [table] becomes its token and every other character is copied. *)
Fixpoint pretranslate_with (table : list (string * string)) (s : string)
    : string :=
  match s with
  | EmptyString => EmptyString
  | String c s' =>
      match s' with
      | String d s'' =>
          if Ascii.eqb c "%" then
            match directive_token_in table d with
            | Some tok => tok ++ pretranslate_with table s''
            | None => String c (pretranslate_with table s')
            end
          else String c (pretranslate_with table s')
      | EmptyString => String c EmptyString
      end
  end.

(** The pre-translation as the specification words it: every occurrence
    of a recognised directive replaced by its token, all else unchanged. *)
Definition directive_token : ascii -> option string :=
  directive_token_in shellDateFormatRef.

Definition pretranslate_spec : string -> string :=
  pretranslate_with shellDateFormatRef.

(** [d] is the letter of a recognised directive. *)
Definition is_directive_letter (d : ascii) : bool :=
  match directive_token d with Some _ => true | None => false end.

Definition starts_with (d : ascii) (s : string) : bool :=
  match s with
  | String c _ => Ascii.eqb c d
  | EmptyString => false
  end.

(** What makes the replacements independent of their order: a token has
    no ['%'] and begins with a character that is no directive letter, and a
    key is ['%'] followed by a directive letter. *)
Definition token_ok (tok : string) : bool :=
  negb (Contains tok "%") &&
  match tok with
  | String c _ => negb (is_directive_letter c)
  | EmptyString => false
  end.

(** Every token the table can give is well formed. *)
Definition tokens_ok (table : list (string * string)) : Prop :=
  forall d tok, directive_token_in table d = Some tok -> token_ok tok = true.

Definition entry_ok (kv : string * string) : bool :=
  match fst kv with
  | String c (String d EmptyString) =>
      Ascii.eqb c "%" && is_directive_letter d && token_ok (snd kv)
  | _ => false
  end.

(** ** The collaborators of [shellutil.go]

    What the file calls and does not define: the evaluator that resolves
    values, the original [$(shell)] node, the text scanners, the find cache
    and the [time] package.  They act on an external state [Ext] (variables,
    file system, cache contents) that this file never inspects. *)

Class Env : Type := {
  funcShell : Type;
  Evaluator : Type;
  error : Type;
  Ext : Type;
  (** the fields of an [ssvWriter] other than its target [w] *)
  ssvWriter : Type;
  Time : Type;

  (** [ev.args(abuf, args...)]: the resolved bytes of each argument, or an
      error *)
  ev_args : Evaluator -> list Value -> Ext -> result error (list bytes) * Ext;
  (** [Eval(w, ev)] of [*funcShell]: the bytes it writes to [w] and what it
      returns *)
  funcShell_Eval : funcShell -> Evaluator -> Ext -> (bytes * result error unit) * Ext;
  trimSpaceBytes : bytes -> bytes;
  (** the successive [ws.Bytes()] of [for ws.Scan()] over
      [newWordScanner(b)] *)
  wordScanner : bytes -> list bytes;

  (** [ssvWriter{w: w}] *)
  ssvWriter_new : ssvWriter;
  (** the methods of [androidFindCache]; a query returns the bytes it
      writes through its [*ssvWriter] and the writer's new fields *)
  cache_init : Ext -> Ext;
  cache_ready : Ext -> bool * Ext;
  cache_leavesReady : Ext -> bool * Ext;
  cache_findInDir : ssvWriter -> string -> Ext -> (bytes * ssvWriter) * Ext;
  cache_findExtFilesUnder :
    ssvWriter -> string -> string -> string -> Ext -> (bytes * ssvWriter * bool) * Ext;
  cache_findJavaResourceFileGroup :
    ssvWriter -> string -> Ext -> (bytes * ssvWriter) * Ext;
  cache_findleaves :
    ssvWriter -> string -> string -> list string -> Z -> Ext -> (bytes * ssvWriter) * Ext;
  androidDefaultLeafNames : list string;

  (** [time.Time] *)
  Time_IsZero : Time -> bool;
  Time_Format : Time -> string -> string
}.

(** The calls made to [androidFindCache] and to the original command, in
    order: a record kept beside the state to tell which of them a handler
    has issued. *)
Inductive Call : Type :=
| call_original
| call_init
| call_ready
| call_leavesReady
| call_findInDir (dir : string)
| call_findExtFilesUnder (chdir root ext : string)
| call_findJavaResourceFileGroup (dir : string)
| call_findleaves (dir name : string) (prunes : list string) (mindepth : Z).

(** The listing queries, as opposed to the readiness checks and [init]. *)
Definition is_query (c : Call) : bool :=
  match c with
  | call_original | call_init | call_ready | call_leavesReady => false
  | _ => true
  end.

Section State.
Context `{env : Env}.

(** The state an evaluation runs in: what has been written to the writer
    [w], the external state, the package variable [ShellDateTimestamp], and
    the calls made so far. *)
Record World : Type := mkWorld {
  w_out : bytes;
  w_ext : Ext;
  ShellDateTimestamp : Time;
  w_calls : list Call
}.

Definition set_ext (e : Ext) (s : World) : World :=
  mkWorld (w_out s) e (ShellDateTimestamp s) (w_calls s).

Definition add_out (b : bytes) (s : World) : World :=
  mkWorld (w_out s ++ b) (w_ext s) (ShellDateTimestamp s) (w_calls s).

Definition add_call (c : Call) (s : World) : World :=
  mkWorld (w_out s) (w_ext s) (ShellDateTimestamp s) (w_calls s ++ [c]).

(** State and error monad. *)
Definition M (A : Type) : Type := World -> result error A * World.

Definition ret {A} (a : A) : M A := fun s => (Ok a, s).

Definition bind {A B} (m : M A) (k : A -> M B) : M B :=
  fun s =>
    match m s with
    | (Ok a, s') => k a s'
    | (Err e, s') => (Err e, s')
    | (Panic, s') => (Panic, s')
    end.

Definition panic {A} : M A := fun s => (Panic, s).

(** [l[i]] *)
Definition index {A} (l : list A) (i : nat) : M A :=
  match nth_error l i with
  | Some a => ret a
  | None => panic
  end.

(** [w.Write(b)], its result dropped as in the source. *)
Definition w_Write (b : bytes) : M unit := fun s => (Ok tt, add_out b s).

Definition get_ShellDateTimestamp : M Time :=
  fun s => (Ok (ShellDateTimestamp s), s).

End State.

Declare Scope go_scope.
Delimit Scope go_scope with go.
Notation "x <- m ;; k" := (bind m (fun x => k))
  (at level 61, m at next level, right associativity) : go_scope.
Notation "m ;;; k" := (bind m (fun _ => k))
  (at level 61, right associativity) : go_scope.
Local Open Scope go_scope.

(** ** The nodes and their evaluation *)

Section Handlers.
Context `{env : Env}.

(** What a compactor returns: the original [*funcShell] itself, or one of
    the specialised nodes, each embedding that [*funcShell]. *)
Inductive Node : Type :=
| origShell (sh : funcShell)
| funcShellAndroidRot13 (sh : funcShell) (v : Value)
| funcShellAndroidFindFileInDir (sh : funcShell) (dir : Value)
| funcShellAndroidFindExtFilesUnder (sh : funcShell) (chdir roots : Value) (ext : string)
| funcShellAndroidFindJavaResourceFileGroup (sh : funcShell) (dir : Value)
| funcShellAndroidFindleaves (sh : funcShell) (prunes : list Value)
    (dirlist name : Value) (mindepth : Z)
| funcShellDate (sh : funcShell) (format : string).

(** *** Calls to the collaborators, lifted to the monad *)

Definition args (ev : Evaluator) (vs : list Value) : M (list bytes) :=
  fun s => let '(r, e) := ev_args ev vs (w_ext s) in (r, set_ext e s).

(** [f.funcShell.Eval(w, ev)] *)
Definition shell_Eval (sh : funcShell) (ev : Evaluator) : M unit :=
  fun s =>
    let '((o, r), e) := funcShell_Eval sh ev (w_ext s) in
    (r, add_call call_original (add_out o (set_ext e s))).

Definition init : M unit :=
  fun s => (Ok tt, add_call call_init (set_ext (cache_init (w_ext s)) s)).

Definition ready : M bool :=
  fun s =>
    let '(b, e) := cache_ready (w_ext s) in
    (Ok b, add_call call_ready (set_ext e s)).

Definition leavesReady : M bool :=
  fun s =>
    let '(b, e) := cache_leavesReady (w_ext s) in
    (Ok b, add_call call_leavesReady (set_ext e s)).

(** The queries below write through an [ssvWriter] whose target is [w]. *)
Definition findInDir (sw : ssvWriter) (dir : string) : M ssvWriter :=
  fun s =>
    let '((o, sw'), e) := cache_findInDir sw dir (w_ext s) in
    (Ok sw', add_call (call_findInDir dir) (add_out o (set_ext e s))).

Definition findJavaResourceFileGroup (sw : ssvWriter) (dir : string) : M ssvWriter :=
  fun s =>
    let '((o, sw'), e) := cache_findJavaResourceFileGroup sw dir (w_ext s) in
    (Ok sw', add_call (call_findJavaResourceFileGroup dir) (add_out o (set_ext e s))).

Definition findleaves (sw : ssvWriter) (dir name : string) (prunes : list string)
    (mindepth : Z) : M ssvWriter :=
  fun s =>
    let '((o, sw'), e) := cache_findleaves sw dir name prunes mindepth (w_ext s) in
    (Ok sw',
     add_call (call_findleaves dir name prunes mindepth) (add_out o (set_ext e s))).

(** This query writes through an [ssvWriter] whose target is the local
    buffer [buf]: the bytes it writes are returned, not added to [w]. *)
Definition findExtFilesUnder (sw : ssvWriter) (chdir root ext : string)
    : M (bytes * ssvWriter * bool) :=
  fun s =>
    let '(r, e) := cache_findExtFilesUnder sw chdir root ext (w_ext s) in
    (Ok r, add_call (call_findExtFilesUnder chdir root ext) (set_ext e s)).

(** *** rot13 *)

Definition Eval_Rot13 (sh : funcShell) (v : Value) (ev : Evaluator) : M unit :=
  fargs <- args ev [v] ;;
  a0 <- index fargs 0 ;;
  w_Write (Rot13.rot13 a0).

(** *** find-file-in-dir *)

Definition Eval_FindFileInDir (sh : funcShell) (dir : Value) (ev : Evaluator)
    : M unit :=
  fargs <- args ev [dir] ;;
  a0 <- index fargs 0 ;;
  let dir := string_of_bytes (trimSpaceBytes a0) in
  if Contains dir ".." then shell_Eval sh ev
  else
    r <- ready ;;
    if negb r then shell_Eval sh ev
    else
      findInDir ssvWriter_new dir ;;;
      ret tt.

(** *** extension files under roots *)

(** The loop over [ws.Scan()]: the roots collected so far and [hasDotDot]. *)
Definition scan_roots (words : list bytes) : list string * bool :=
  fold_left
    (fun (acc : list string * bool) (wb : bytes) =>
       let root := string_of_bytes wb in
       (fst acc ++ [string_of_bytes wb],
        if Contains root ".." then true else snd acc))
    words ([], false).

(** The loop [for _, root := range roots]: [None] when a query fails (the
    branch that frees [buf] and returns the original command), else the
    contents of [buf]. *)
Fixpoint ext_loop (chdir ext : string) (roots : list string) (sw : ssvWriter)
    (buf : bytes) : M (option bytes) :=
  match roots with
  | [] => ret (Some buf)
  | root :: roots' =>
      r <- findExtFilesUnder sw chdir root ext ;;
      let '(o, sw', ok) := r in
      if negb ok then ret None
      else ext_loop chdir ext roots' sw' (buf ++ o)
  end.

Definition Eval_FindExtFilesUnder (sh : funcShell) (chdir roots : Value)
    (ext : string) (ev : Evaluator) : M unit :=
  fargs <- args ev [chdir; roots] ;;
  a0 <- index fargs 0 ;;
  let chdir := string_of_bytes (trimSpaceBytes a0) in
  a1 <- index fargs 1 ;;
  let '(roots, hasDotDot) := scan_roots (wordScanner a1) in
  if Contains chdir ".." || hasDotDot then shell_Eval sh ev
  else
    r <- ready ;;
    if negb r then shell_Eval sh ev
    else
      b <- ext_loop chdir ext roots ssvWriter_new [] ;;
      match b with
      | None => shell_Eval sh ev
      | Some buf => w_Write buf
      end.

(** *** java resource file group *)

Definition Eval_FindJavaResourceFileGroup (sh : funcShell) (dir : Value)
    (ev : Evaluator) : M unit :=
  fargs <- args ev [dir] ;;
  a0 <- index fargs 0 ;;
  let dir := string_of_bytes (trimSpaceBytes a0) in
  if Contains dir ".." then shell_Eval sh ev
  else
    r <- ready ;;
    if negb r then shell_Eval sh ev
    else
      findJavaResourceFileGroup ssvWriter_new dir ;;;
      ret tt.

(** *** findleaves *)

(** The loop over [ws.Scan()] of the directory list: [None] at the first
    token that contains [".."] (the early return), else the directories. *)
Fixpoint scan_dirs (words : list bytes) (dirs : list string)
    : option (list string) :=
  match words with
  | [] => Some dirs
  | wb :: words' =>
      let dir := string_of_bytes wb in
      if Contains dir ".." then None
      else scan_dirs words' (dirs ++ [dir])
  end.

(** The loop [for _, dir := range dirs], one [ssvWriter] for all queries. *)
Fixpoint leaves_loop (name : string) (prunes : list string) (mindepth : Z)
    (dirs : list string) (sw : ssvWriter) : M unit :=
  match dirs with
  | [] => ret tt
  | dir :: dirs' =>
      sw' <- findleaves sw dir name prunes mindepth ;;
      leaves_loop name prunes mindepth dirs' sw'
  end.

Definition Eval_Findleaves (sh : funcShell) (prunes : list Value)
    (dirlist name : Value) (mindepth : Z) (ev : Evaluator) : M unit :=
  r <- leavesReady ;;
  if negb r then shell_Eval sh ev
  else
    let params := [name] ++ [dirlist] ++ prunes in
    fargs <- args ev params ;;
    a0 <- index fargs 0 ;;
    let name := string_of_bytes (trimSpaceBytes a0) in
    a1 <- index fargs 1 ;;
    match scan_dirs (wordScanner a1) [] with
    | None => shell_Eval sh ev
    | Some dirs =>
        let prunes :=
          map (fun arg => string_of_bytes (trimSpaceBytes arg)) (skipn 2 fargs) in
        leaves_loop name prunes mindepth dirs ssvWriter_new
    end.

(** *** date *)

Definition Eval_Date (sh : funcShell) (format : string) (ev : Evaluator)
    : M unit :=
  ts <- get_ShellDateTimestamp ;;
  w_Write (bytes_of_string (Time_Format ts format)).

(** *** Dispatch on the node

    The method [Eval] of whichever node the compactor returned. *)

Definition Eval_node (n : Node) (ev : Evaluator) : M unit :=
  match n with
  | origShell sh => shell_Eval sh ev
  | funcShellAndroidRot13 sh v => Eval_Rot13 sh v ev
  | funcShellAndroidFindFileInDir sh dir => Eval_FindFileInDir sh dir ev
  | funcShellAndroidFindExtFilesUnder sh chdir roots ext =>
      Eval_FindExtFilesUnder sh chdir roots ext ev
  | funcShellAndroidFindJavaResourceFileGroup sh dir =>
      Eval_FindJavaResourceFileGroup sh dir ev
  | funcShellAndroidFindleaves sh prunes dirlist name mindepth =>
      Eval_Findleaves sh prunes dirlist name mindepth ev
  | funcShellDate sh format => Eval_Date sh format ev
  end.

(** *** The compactors of [shBuiltins] *)

(** [contains(list, s)] *)
Definition contains (l : list string) (x : string) : bool :=
  existsb (String.eqb x) l.

(** [v[0] != v[1]] *)
Definition Value_neq (a b : Value) : M bool :=
  match Value_eq a b with
  | Some eq => ret (negb eq)
  | None => panic
  end.

Definition compact_rot13 (sh : funcShell) (matches : list Value) : M Node :=
  v0 <- index matches 0 ;;
  ret (funcShellAndroidRot13 sh v0).

Definition compact_find_subdir_assets (sh : funcShell) (v : list Value) : M Node :=
  v0 <- index v 0 ;;
  v1 <- index v 1 ;;
  ne <- Value_neq v0 v1 ;;
  if ne then ret (origShell sh)
  else
    init ;;;
    ret (funcShellAndroidFindFileInDir sh v0).

Definition compact_ext_files_under (ext : string) (sh : funcShell)
    (v : list Value) : M Node :=
  init ;;;
  v0 <- index v 0 ;;
  v1 <- index v 1 ;;
  ret (funcShellAndroidFindExtFilesUnder sh v0 v1 ext).

Definition compact_all_java_files_under := compact_ext_files_under ".java".
Definition compact_all_proto_files_under := compact_ext_files_under ".proto".

Definition compact_java_resource_file_groups (sh : funcShell) (v : list Value)
    : M Node :=
  init ;;;
  ret (funcShellAndroidFindJavaResourceFileGroup sh (expr v)).

Definition compact_subdir_cleanspecs (sh : funcShell) (v : list Value) : M Node :=
  if negb (contains androidDefaultLeafNames "CleanSpec.mk") then ret (origShell sh)
  else
    init ;;;
    v0 <- index v 0 ;;
    ret (funcShellAndroidFindleaves sh [v0; literal ".repo"; literal ".git"]
           (literal ".") (literal "CleanSpec.mk") (-1)).

Definition compact_findleaves_makefiles (mindepth : Z) (sh : funcShell)
    (v : list Value) : M Node :=
  if negb (contains androidDefaultLeafNames "Android.mk") then ret (origShell sh)
  else
    init ;;;
    v0 <- index v 0 ;;
    v1 <- index v 1 ;;
    ret (funcShellAndroidFindleaves sh [v0; literal ".repo"; literal ".git"]
           v1 (literal "Android.mk") mindepth).

Definition compact_subdir_makefiles := compact_findleaves_makefiles (-1).
Definition compact_first_makefiles_under := compact_findleaves_makefiles 2.

Definition compactShellDate (range_order : list (string * string))
    (sh : funcShell) (v : list Value) : M Node :=
  ts <- get_ShellDateTimestamp ;;
  if Time_IsZero ts then ret (origShell sh)
  else
    v0 <- index v 0 ;;
    match v0 with
    | literal tf => ret (funcShellDate sh (shellDateReplace range_order tf))
    | _ => ret (origShell sh)
    end.

(** *** Vocabulary of the statements *)

(** A resolved token, as text, contains the parent-directory marker. *)
Definition has_dotdot (wb : bytes) : bool :=
  Contains (string_of_bytes wb) "..".

(** The listing queries made so far. *)
Definition queries (s : World) : list Call := filter is_query (w_calls s).

(** The state [s] after calls [cs] that left the external state at [e]
    and wrote nothing to [w]. *)
Definition after (e : Ext) (cs : list Call) (s : World) : World :=
  mkWorld (w_out s) e (ShellDateTimestamp s) (w_calls s ++ cs).

(** Evaluating [n] from [s] is evaluating the original command [sh] from
    [s1], a state in which nothing more has been written to [w] and no
    listing query has been made since [s]; and none is made after. *)
Definition falls_back (n : Node) (sh : funcShell) (ev : Evaluator)
    (s s1 : World) : Prop :=
  Eval_node n ev s = shell_Eval sh ev s1 /\
  w_out s1 = w_out s /\
  queries s1 = queries s /\
  queries (snd (Eval_node n ev s)) = queries s.

(** The queries for [roots], issued in order from the writer fields [sw],
    the buffer [buf] and the external state [e], all succeed and leave
    [sw'], [buf'] and [e']. *)
Inductive all_succeed (chdir ext : string)
    : list string -> ssvWriter -> bytes -> Ext -> ssvWriter -> bytes -> Ext -> Prop :=
| all_succeed_nil sw buf e : all_succeed chdir ext [] sw buf e sw buf e
| all_succeed_cons root roots sw buf e o sw1 e1 sw' buf' e' :
    cache_findExtFilesUnder sw chdir root ext e = ((o, sw1, true), e1) ->
    all_succeed chdir ext roots sw1 (buf ++ o) e1 sw' buf' e' ->
    all_succeed chdir ext (root :: roots) sw buf e sw' buf' e'.

(** *** Vocabulary of further statements *)

(** The original command a node embeds (or is). *)
Definition node_sh (n : Node) : funcShell :=
  match n with
  | origShell sh => sh
  | funcShellAndroidRot13 sh _ => sh
  | funcShellAndroidFindFileInDir sh _ => sh
  | funcShellAndroidFindExtFilesUnder sh _ _ _ => sh
  | funcShellAndroidFindJavaResourceFileGroup sh _ => sh
  | funcShellAndroidFindleaves sh _ _ _ _ => sh
  | funcShellDate sh _ => sh
  end.

(** The nodes whose evaluation asks [androidFindCache]. *)
Definition uses_cache (n : Node) : bool :=
  match n with
  | funcShellAndroidFindFileInDir _ _
  | funcShellAndroidFindExtFilesUnder _ _ _ _
  | funcShellAndroidFindJavaResourceFileGroup _ _
  | funcShellAndroidFindleaves _ _ _ _ _ => true
  | _ => false
  end.

(** The calls of a native path: none, or one readiness check followed by
    listing queries only. *)
Definition native_trace (cs : list Call) : bool :=
  match cs with
  | [] => true
  | call_ready :: cs' | call_leavesReady :: cs' => forallb is_query cs'
  | _ => false
  end.

(** [cs] without a final run of the original command. *)
Definition strip_original (cs : list Call) : list Call :=
  match rev cs with
  | call_original :: r => rev r
  | _ => cs
  end.

(** The order of calls an evaluation keeps to: a native path, then at most
    one run of the original command, as the last call. *)
Definition eval_protocol (cs : list Call) : bool :=
  native_trace (strip_original cs).

(** What the loop of the leaf search writes for [dirs], and the external
    state it leaves, the writer fields going from one query to the next. *)
Fixpoint leaves_writes (name : string) (prunes : list string) (mindepth : Z)
    (dirs : list string) (sw : ssvWriter) (e : Ext) : bytes * Ext :=
  match dirs with
  | [] => ([], e)
  | dir :: dirs' =>
      let '((o, sw'), e1) := cache_findleaves sw dir name prunes mindepth e in
      let '(o', e') := leaves_writes name prunes mindepth dirs' sw' e1 in
      (o ++ o', e')
  end.

(** The state [s] after a handler wrote [o] and made the calls [cs],
    leaving the external state at [e]. *)
Definition wrote (o : bytes) (e : Ext) (cs : list Call) (s : World) : World :=
  mkWorld (w_out s ++ o) e (ShellDateTimestamp s) (w_calls s ++ cs).

(** *** The table [shBuiltins] *)

(** A segment of a template: [literal(...)], [matchVarref{}] or
    [mustLiteralRE(...)]. *)
Inductive Segment : Type :=
| pat_literal (s : string)
| matchVarref
| mustLiteralRE (re : string).

(** The double quote, and a text between double quotes. *)
Definition dq : string := String "034" EmptyString.
Definition quoted (s : string) : string := (dq ++ s ++ dq)%string.

(** An entry of the table. *)
Record Builtin : Type := mkBuiltin {
  name : string;
  pattern : list Segment;
  compact : funcShell -> list Value -> M Node
}.

(** The entries, in the order of the source.  The two date entries share
    [compactShellDate], whose loop visits the map in [range_order]. *)
Definition shBuiltins (range_order : list (string * string)) : list Builtin :=
  [ mkBuiltin "android:rot13"
      [ pat_literal "echo ";
        matchVarref;
        pat_literal " | tr 'a-zA-Z' 'n-za-mN-ZA-M'" ]
      compact_rot13;
    mkBuiltin "android:find-subdir-assets"
      [ pat_literal "if [ -d ";
        matchVarref;
        pat_literal " ] ; then cd ";
        matchVarref;
        pat_literal " ; find ./ -not -name '.*' -and -type f -and -not -type l ; fi" ]
      compact_find_subdir_assets;
    mkBuiltin "android:all-java-files-under"
      [ pat_literal "cd ";
        matchVarref;
        pat_literal " ; find -L ";
        matchVarref;
        pat_literal (" -name " ++ quoted "*.java" ++ " -and -not -name " ++ quoted ".*") ]
      compact_all_java_files_under;
    mkBuiltin "android:all-proto-files-under"
      [ pat_literal "cd ";
        matchVarref;
        pat_literal " ; find -L ";
        matchVarref;
        pat_literal (" -name " ++ quoted "*.proto" ++ " -and -not -name " ++ quoted ".*") ]
      compact_all_proto_files_under;
    mkBuiltin "android:java_resource_file_groups"
      [ pat_literal "cd ";
        matchVarref;
        matchVarref;
        mustLiteralRE "(/)";
        matchVarref;
        pat_literal
          (" && find . -type d -a -name " ++ quoted ".svn"
           ++ " -prune -o -type f -a \! -name " ++ quoted "*.java"
           ++ " -a \! -name " ++ quoted "package.html"
           ++ " -a \! -name " ++ quoted "overview.html"
           ++ " -a \! -name " ++ quoted ".*.swp"
           ++ " -a \! -name " ++ quoted ".DS_Store"
           ++ " -a \! -name " ++ quoted "*~"
           ++ " -print ") ]
      compact_java_resource_file_groups;
    mkBuiltin "android:subdir_cleanspecs"
      [ pat_literal "build/tools/findleaves.py --prune=";
        matchVarref;
        pat_literal " --prune=.repo --prune=.git . CleanSpec.mk" ]
      compact_subdir_cleanspecs;
    mkBuiltin "android:subdir_makefiles"
      [ pat_literal "build/tools/findleaves.py --prune=";
        matchVarref;
        pat_literal " --prune=.repo --prune=.git ";
        matchVarref;
        pat_literal " Android.mk" ]
      compact_subdir_makefiles;
    mkBuiltin "android:first-makefiles-under"
      [ pat_literal "build/tools/findleaves.py --prune=";
        matchVarref;
        pat_literal " --prune=.repo --prune=.git --mindepth=2 ";
        matchVarref;
        pat_literal " Android.mk" ]
      compact_first_makefiles_under;
    mkBuiltin "shell-date"
      [ mustLiteralRE "date \+(\S+)" ]
      (compactShellDate range_order);
    mkBuiltin "shell-date-quoted"
      [ mustLiteralRE ("date " ++ dq ++ "\+([^" ++ dq ++ "]+)" ++ dq) ]
      (compactShellDate range_order) ].

(** Modelled from the spec: the matcher is outside [shellutil.go].  A
    variable slot yields one capture, a variable reference; a pattern
    literal yields one literal capture for each capturing group, counted
    here as the opening parentheses that no backslash escapes (enough for
    the expressions of this table); a literal yields none. *)
Fixpoint groups_from (escaped : bool) (re : string) : nat :=
  match re with
  | EmptyString => 0
  | String c re' =>
      if escaped then groups_from false re'
      else if Ascii.eqb c "\" then groups_from true re'
      else (if Ascii.eqb c "(" then 1 else 0) + groups_from false re'
  end.

Definition captures_of_segment (seg : Segment) : nat :=
  match seg with
  | pat_literal _ => 0
  | matchVarref => 1
  | mustLiteralRE re => groups_from false re
  end.

Definition captures_of (pat : list Segment) : nat :=
  list_sum (map captures_of_segment pat).

(** A capture is never a slice of values. *)
Definition is_capture (v : Value) : bool :=
  match v with
  | expr _ => false
  | _ => true
  end.

(** What a compactor may return, and what it does to the state. *)
Definition compactor_contract (c : funcShell -> list Value -> M Node) : Prop :=
  forall sh v (s s' : World) n,
    c sh v s = (Ok n, s') ->
    node_sh n = sh /\
    s' = if uses_cache n then after (cache_init (w_ext s)) [call_init] s else s.

End Handlers.

(** ** A stub environment

    A small instance of the collaborators, in the manner of a test double:
    variables live in a table, the original command echoes its text, and
    the find cache lists one file per query and refuses the root ["bad"]. *)

Module Stub.

Record ext : Type := mkExt {
  st_ready : bool;
  st_leavesReady : bool;
  st_runs : nat
}.

(** The text of [*varref] number [p], if the table has it. *)
Fixpoint lookup (p : nat) (vars : list (nat * string)) : option string :=
  match vars with
  | [] => None
  | (q, t) :: vars' => if Nat.eqb p q then Some t else lookup p vars'
  end.

(** A literal resolves to itself, a reference to its text in the table; an
    expression of one value resolves as that value. *)
Definition resolve (vars : list (nat * string)) (v : Value) : option bytes :=
  match v with
  | literal t => Some (bytes_of_string t)
  | varref p => option_map bytes_of_string (lookup p vars)
  | expr [literal t] => Some (bytes_of_string t)
  | _ => None
  end.

Fixpoint resolve_all (vars : list (nat * string)) (vs : list Value)
    : result string (list bytes) :=
  match vs with
  | [] => Ok []
  | v :: vs' =>
      match resolve vars v with
      | None => Err "undefined"
      | Some b =>
          match resolve_all vars vs' with
          | Ok bs => Ok (b :: bs)
          | Err e => Err e
          | Panic => Panic
          end
      end
  end.

Definition is_space (c : ascii) : bool := Ascii.eqb c " ".

Fixpoint trim_left (b : bytes) : bytes :=
  match b with
  | c :: b' => if is_space c then trim_left b' else b
  | [] => []
  end.

Definition trim (b : bytes) : bytes := rev (trim_left (rev (trim_left b))).

(** Splits at spaces; [cur] is the word being read, reversed. *)
Fixpoint split_words (b : bytes) (cur : bytes) : list bytes :=
  match b with
  | [] => match cur with [] => [] | _ => [rev cur] end
  | c :: b' =>
      if is_space c
      then match cur with
           | [] => split_words b' []
           | _ => rev cur :: split_words b' []
           end
      else split_words b' (c :: cur)
  end.

(** One word through an [ssvWriter] whose flag says a separator is due. *)
Definition emit (sep : bool) (word : string) : bytes * bool :=
  ((if sep then [" "%char] else []) ++ bytes_of_string word, true).

Definition env : Env := {|
  funcShell := string;
  Evaluator := list (nat * string);
  error := string;
  Ext := ext;
  ssvWriter := bool;
  Time := nat;
  ev_args := fun vars vs e => (resolve_all vars vs, e);
  funcShell_Eval := fun sh _ e =>
    ((bytes_of_string ("sh:" ++ sh), Ok tt),
     mkExt (st_ready e) (st_leavesReady e) (S (st_runs e)));
  trimSpaceBytes := trim;
  wordScanner := fun b => split_words b [];
  ssvWriter_new := false;
  cache_init := fun e => e;
  cache_ready := fun e => (st_ready e, e);
  cache_leavesReady := fun e => (st_leavesReady e, e);
  cache_findInDir := fun sep dir e => (emit sep (dir ++ "/f"), e);
  cache_findExtFilesUnder := fun sep chdir root ext e =>
    if String.eqb root "bad" then (([], sep, false), e)
    else (emit sep (root ++ "/A" ++ ext), true, e);
  cache_findJavaResourceFileGroup := fun sep dir e => (emit sep (dir ++ "/r"), e);
  cache_findleaves := fun sep dir name _ _ e => (emit sep (dir ++ "/" ++ name), e);
  androidDefaultLeafNames := ["CleanSpec.mk"; "Android.mk"];
  Time_IsZero := fun t => Nat.eqb t 0;
  Time_Format := fun _ layout => layout
|}.

Definition world (rdy lrdy : bool) (ts : nat) : @World env :=
  @mkWorld env [] (mkExt rdy lrdy 0) ts [].

(** Both services ready, the timestamp set. *)
Definition s0 : @World env := world true true 7.

(** Neither service ready. *)
Definition s_cold : @World env := world false false 7.

(** A table in which two references hold the same text. *)
Definition vars : list (nat * string) :=
  [ (1, " up/../x "); (2, "assets"); (3, "assets"); (4, "Hello") ].


(** The same environment with a cache that indexes no leaf name. *)
Definition env_bare : Env := {|
  funcShell := string;
  Evaluator := list (nat * string);
  error := string;
  Ext := ext;
  ssvWriter := bool;
  Time := nat;
  ev_args := fun vars vs e => (resolve_all vars vs, e);
  funcShell_Eval := fun sh _ e =>
    ((bytes_of_string ("sh:" ++ sh), Ok tt),
     mkExt (st_ready e) (st_leavesReady e) (S (st_runs e)));
  trimSpaceBytes := trim;
  wordScanner := fun b => split_words b [];
  ssvWriter_new := false;
  cache_init := fun e => e;
  cache_ready := fun e => (st_ready e, e);
  cache_leavesReady := fun e => (st_leavesReady e, e);
  cache_findInDir := fun sep dir e => (emit sep (dir ++ "/f"), e);
  cache_findExtFilesUnder := fun sep chdir root ext e =>
    if String.eqb root "bad" then (([], sep, false), e)
    else (emit sep (root ++ "/A" ++ ext), true, e);
  cache_findJavaResourceFileGroup := fun sep dir e => (emit sep (dir ++ "/r"), e);
  cache_findleaves := fun sep dir name _ _ e => (emit sep (dir ++ "/" ++ name), e);
  androidDefaultLeafNames := [];
  Time_IsZero := fun t => Nat.eqb t 0;
  Time_Format := fun _ layout => layout
|}.

Definition s_bare : @World env_bare := @mkWorld env_bare [] (mkExt true true 0) 7 [].

End Stub.

(** * Properties *)

(** ** rot13 *)

Lemma rot13_byte_involutive (b : ascii) :
  Rot13.rot13_byte (Rot13.rot13_byte b) = b.
Proof.
  destruct b as [[] [] [] [] [] [] [] []]; reflexivity.
Qed.

Lemma rot13_byte_non_letter (b : ascii) :
  Rot13.is_letter b = false -> Rot13.rot13_byte b = b.
Proof.
  destruct b as [[] [] [] [] [] [] [] []]; intros H;
    first [ reflexivity | discriminate H ].
Qed.

Lemma rot13_byte_lower (b : ascii) :
  Rot13.is_lower b = true ->
  N_of_ascii (Rot13.rot13_byte b)
  = (N_of_ascii "a" + (N_of_ascii b - N_of_ascii "a" + 13) mod 26)%N.
Proof.
  destruct b as [[] [] [] [] [] [] [] []]; intros H;
    first [ discriminate H | reflexivity ].
Qed.

Lemma rot13_byte_upper (b : ascii) :
  Rot13.is_upper b = true ->
  N_of_ascii (Rot13.rot13_byte b)
  = (N_of_ascii "A" + (N_of_ascii b - N_of_ascii "A" + 13) mod 26)%N.
Proof.
  destruct b as [[] [] [] [] [] [] [] []]; intros H;
    first [ discriminate H | reflexivity ].
Qed.

(** C7: applying the rotation twice gives back the buffer, and one
    application keeps every byte outside ['a'-'z'] and ['A'-'Z'] as it
    is, at its place. *)
Theorem rot13_twice_and_non_letters :
  (forall buf : bytes, Rot13.rot13 (Rot13.rot13 buf) = buf) /\
  (forall (buf : bytes) (i : nat) (b : ascii),
      nth_error buf i = Some b ->
      Rot13.is_letter b = false ->
      nth_error (Rot13.rot13 buf) i = Some b).
Proof.
  split.
  - intros buf. unfold Rot13.rot13. rewrite map_map.
    induction buf as [|b buf IH]; simpl.
    + reflexivity.
    + rewrite rot13_byte_involutive, IH. reflexivity.
  - intros buf i b Hnth Hb. unfold Rot13.rot13.
    rewrite nth_error_map, Hnth. simpl.
    rewrite rot13_byte_non_letter by assumption. reflexivity.
Qed.

Lemma rot13_involutive (buf : bytes) : Rot13.rot13 (Rot13.rot13 buf) = buf.
Proof.
  unfold Rot13.rot13. rewrite map_map.
  induction buf as [|b buf IH]; cbn [map].
  - reflexivity.
  - rewrite rot13_byte_involutive, IH. reflexivity.
Qed.

(** X10: the rotation keeps the case of every byte (a lower-case letter
    goes to a lower-case letter, an upper-case one to an upper-case one,
    anything else to a non-letter), and it moves every letter: no letter is
    its own image. *)
Theorem rot13_keeps_case_and_moves_letters (b : ascii) :
  Rot13.is_lower (Rot13.rot13_byte b) = Rot13.is_lower b /\
  Rot13.is_upper (Rot13.rot13_byte b) = Rot13.is_upper b /\
  (Rot13.is_letter b = true -> Rot13.rot13_byte b <> b).
Proof.
  destruct b as [[] [] [] [] [] [] [] []];
    (split; [reflexivity|split; [reflexivity|]]);
    intros H; first [ discriminate H | intros Heq; discriminate Heq ].
Qed.

(** X11: on buffers the rotation keeps the length, acts byte by byte
    (the rotation of a concatenation is the concatenation of the
    rotations), and is one-to-one and onto: two buffers with the same
    rotation are equal, and every buffer is the rotation of one. *)
Theorem rot13_is_a_bijection :
  (forall buf, List.length (Rot13.rot13 buf) = List.length buf) /\
  (forall buf1 buf2,
      Rot13.rot13 (buf1 ++ buf2) = Rot13.rot13 buf1 ++ Rot13.rot13 buf2) /\
  (forall buf1 buf2, Rot13.rot13 buf1 = Rot13.rot13 buf2 -> buf1 = buf2) /\
  (forall buf, exists buf0, Rot13.rot13 buf0 = buf).
Proof.
  split; [|split; [|split]].
  - intros buf. unfold Rot13.rot13. apply length_map.
  - intros buf1 buf2. unfold Rot13.rot13. apply map_app.
  - intros buf1 buf2 H.
    rewrite <- (rot13_involutive buf1), <- (rot13_involutive buf2), H.
    reflexivity.
  - intros buf. exists (Rot13.rot13 buf). apply rot13_involutive.
Qed.

(** ** The handlers that ask the find cache *)

Section HandlerFacts.
Context `{env : Env}.

Lemma bind_ret {A B} (a : A) (k : A -> M B) (s : World) :
  bind (ret a) k s = k a s.
Proof. reflexivity. Qed.

Lemma bind_args {B} ev vs (k : list bytes -> M B) s fargs e1 :
  ev_args ev vs (w_ext s) = (Ok fargs, e1) ->
  bind (args ev vs) k s = k fargs (set_ext e1 s).
Proof. intros H. unfold bind, args. rewrite H. reflexivity. Qed.

Lemma bind_args_err {B} ev vs (k : list bytes -> M B) s err e1 :
  ev_args ev vs (w_ext s) = (Err err, e1) ->
  bind (args ev vs) k s = (Err err, set_ext e1 s).
Proof. intros H. unfold bind, args. rewrite H. reflexivity. Qed.

Lemma bind_index {A B} (l : list A) i (k : A -> M B) s a :
  nth_error l i = Some a ->
  bind (index l i) k s = k a s.
Proof. intros H. unfold bind, index. rewrite H. reflexivity. Qed.

Lemma bind_ready {B} (k : bool -> M B) s b e1 :
  cache_ready (w_ext s) = (b, e1) ->
  bind ready k s = k b (add_call call_ready (set_ext e1 s)).
Proof. intros H. unfold bind, ready. rewrite H. reflexivity. Qed.

Lemma bind_leavesReady {B} (k : bool -> M B) s b e1 :
  cache_leavesReady (w_ext s) = (b, e1) ->
  bind leavesReady k s = k b (add_call call_leavesReady (set_ext e1 s)).
Proof. intros H. unfold bind, leavesReady. rewrite H. reflexivity. Qed.

Ltac run_step :=
  first
    [ erewrite bind_args by (simpl; eassumption)
    | erewrite bind_index by eassumption
    | erewrite bind_ready by (simpl; eassumption)
    | erewrite bind_leavesReady by (simpl; eassumption)
    | rewrite bind_ret
    | match goal with
      | H : Contains _ _ = _ |- _ => rewrite H
      | H : has_dotdot _ = _ |- _ => rewrite H
      | H : existsb _ _ = _ |- _ => rewrite H
      end ].

Ltac run := cbn [negb app]; repeat (run_step; cbn [negb app]).

Lemma scan_roots_from (words : list bytes) (acc : list string) (hdd : bool) :
  fold_left
    (fun (acc : list string * bool) (wb : bytes) =>
       let root := string_of_bytes wb in
       (fst acc ++ [string_of_bytes wb],
        if Contains root ".." then true else snd acc))
    words (acc, hdd)
  = (acc ++ map string_of_bytes words, hdd || existsb has_dotdot words).
Proof.
  revert acc hdd.
  induction words as [|wb words IH]; intros acc hdd; simpl.
  - rewrite app_nil_r, orb_false_r. reflexivity.
  - rewrite IH. rewrite <- app_assoc. simpl. f_equal.
    unfold has_dotdot at 2.
    destruct (Contains (string_of_bytes wb) ".."); simpl.
    + rewrite orb_true_r. reflexivity.
    + reflexivity.
Qed.

Lemma scan_roots_spec (words : list bytes) :
  scan_roots words = (map string_of_bytes words, existsb has_dotdot words).
Proof. unfold scan_roots. rewrite scan_roots_from. reflexivity. Qed.

Lemma scan_dirs_from (words : list bytes) (acc : list string) :
  scan_dirs words acc
  = if existsb has_dotdot words then None
    else Some (acc ++ map string_of_bytes words).
Proof.
  revert acc.
  induction words as [|wb words IH]; intros acc; simpl.
  - rewrite app_nil_r. reflexivity.
  - unfold has_dotdot at 1.
    destruct (Contains (string_of_bytes wb) ".."); simpl.
    + reflexivity.
    + rewrite IH, <- app_assoc. reflexivity.
Qed.

Lemma FindFileInDir_dotdot sh dir ev s fargs a0 e1 :
  ev_args ev [dir] (w_ext s) = (Ok fargs, e1) ->
  nth_error fargs 0 = Some a0 ->
  has_dotdot (trimSpaceBytes a0) = true ->
  Eval_node (funcShellAndroidFindFileInDir sh dir) ev s
  = shell_Eval sh ev (set_ext e1 s).
Proof.
  intros Hargs Hnth Hdd. unfold has_dotdot in Hdd.
  simpl. unfold Eval_FindFileInDir. run. reflexivity.
Qed.

Lemma FindJavaResourceFileGroup_dotdot sh dir ev s fargs a0 e1 :
  ev_args ev [dir] (w_ext s) = (Ok fargs, e1) ->
  nth_error fargs 0 = Some a0 ->
  has_dotdot (trimSpaceBytes a0) = true ->
  Eval_node (funcShellAndroidFindJavaResourceFileGroup sh dir) ev s
  = shell_Eval sh ev (set_ext e1 s).
Proof.
  intros Hargs Hnth Hdd. unfold has_dotdot in Hdd.
  simpl. unfold Eval_FindJavaResourceFileGroup. run. reflexivity.
Qed.

Lemma FindExtFilesUnder_dotdot sh chdir roots ext ev s fargs a0 a1 e1 :
  ev_args ev [chdir; roots] (w_ext s) = (Ok fargs, e1) ->
  nth_error fargs 0 = Some a0 ->
  nth_error fargs 1 = Some a1 ->
  has_dotdot (trimSpaceBytes a0) || existsb has_dotdot (wordScanner a1) = true ->
  Eval_node (funcShellAndroidFindExtFilesUnder sh chdir roots ext) ev s
  = shell_Eval sh ev (set_ext e1 s).
Proof.
  intros Hargs Hn0 Hn1 Hdd. unfold has_dotdot at 1 in Hdd.
  simpl. unfold Eval_FindExtFilesUnder. run.
  rewrite scan_roots_spec. rewrite Hdd. reflexivity.
Qed.

Lemma Findleaves_dotdot sh prunes dirlist name mindepth ev s e0 fargs a0 a1 e1 :
  cache_leavesReady (w_ext s) = (true, e0) ->
  ev_args ev (name :: dirlist :: prunes) e0 = (Ok fargs, e1) ->
  nth_error fargs 0 = Some a0 ->
  nth_error fargs 1 = Some a1 ->
  existsb has_dotdot (wordScanner a1) = true ->
  Eval_node (funcShellAndroidFindleaves sh prunes dirlist name mindepth) ev s
  = shell_Eval sh ev (add_call call_leavesReady (set_ext e1 s)).
Proof.
  intros Hrdy Hargs Hn0 Hn1 Hdd.
  simpl. unfold Eval_Findleaves. run.
  rewrite scan_dirs_from, Hdd. reflexivity.
Qed.


Lemma queries_app (s : World) (cs : list Call) (e : Ext) :
  queries (after e cs s) = queries s ++ filter is_query cs.
Proof. unfold queries, after. simpl. apply filter_app. Qed.

Lemma shell_Eval_queries sh ev (s : World) :
  queries (snd (shell_Eval sh ev s)) = queries s.
Proof.
  unfold shell_Eval, queries.
  destruct (funcShell_Eval sh ev (w_ext s)) as [[o r] e]. simpl.
  rewrite filter_app. simpl. apply app_nil_r.
Qed.

Lemma falls_back_intro n sh ev s s1 :
  Eval_node n ev s = shell_Eval sh ev s1 ->
  w_out s1 = w_out s ->
  queries s1 = queries s ->
  falls_back n sh ev s s1.
Proof.
  intros HE Hout Hq. unfold falls_back. repeat split; try assumption.
  rewrite HE, shell_Eval_queries. exact Hq.
Qed.

(** C1: when a resolved directory or root token contains [".."], each of
    the four handlers returns what the original command returns, run from
    the state the resolution left: nothing has been written and no listing
    query is made (the leaf-search handler has by then asked
    [leavesReady]). *)
Theorem dotdot_falls_back :
  (forall sh dir ev s fargs a0 e1,
      ev_args ev [dir] (w_ext s) = (Ok fargs, e1) ->
      nth_error fargs 0 = Some a0 ->
      has_dotdot (trimSpaceBytes a0) = true ->
      falls_back (funcShellAndroidFindFileInDir sh dir) sh ev s (set_ext e1 s)) /\
  (forall sh chdir roots ext ev s fargs a0 a1 e1,
      ev_args ev [chdir; roots] (w_ext s) = (Ok fargs, e1) ->
      nth_error fargs 0 = Some a0 ->
      nth_error fargs 1 = Some a1 ->
      has_dotdot (trimSpaceBytes a0) = true \/
        Exists (fun root => has_dotdot root = true) (wordScanner a1) ->
      falls_back (funcShellAndroidFindExtFilesUnder sh chdir roots ext) sh ev s
        (set_ext e1 s)) /\
  (forall sh dir ev s fargs a0 e1,
      ev_args ev [dir] (w_ext s) = (Ok fargs, e1) ->
      nth_error fargs 0 = Some a0 ->
      has_dotdot (trimSpaceBytes a0) = true ->
      falls_back (funcShellAndroidFindJavaResourceFileGroup sh dir) sh ev s
        (set_ext e1 s)) /\
  (forall sh prunes dirlist name mindepth ev s e0 fargs a0 a1 e1,
      cache_leavesReady (w_ext s) = (true, e0) ->
      ev_args ev (name :: dirlist :: prunes) e0 = (Ok fargs, e1) ->
      nth_error fargs 0 = Some a0 ->
      nth_error fargs 1 = Some a1 ->
      Exists (fun dir => has_dotdot dir = true) (wordScanner a1) ->
      falls_back (funcShellAndroidFindleaves sh prunes dirlist name mindepth) sh ev s
        (after e1 [call_leavesReady] s)).
Proof.
  split; [|split; [|split]].
  - intros. apply falls_back_intro; try reflexivity.
    eapply FindFileInDir_dotdot; eassumption.
  - intros sh chdir roots ext ev s fargs a0 a1 e1 Hargs Hn0 Hn1 Hdd.
    apply falls_back_intro; try reflexivity.
    eapply FindExtFilesUnder_dotdot; try eassumption.
    apply orb_true_iff. destruct Hdd as [H|H]; [left; exact H|right].
    apply existsb_exists. apply Exists_exists in H. exact H.
  - intros. apply falls_back_intro; try reflexivity.
    eapply FindJavaResourceFileGroup_dotdot; eassumption.
  - intros sh prunes dirlist name mindepth ev s e0 fargs a0 a1 e1
      Hrdy Hargs Hn0 Hn1 Hdd.
    apply falls_back_intro.
    + erewrite Findleaves_dotdot; try eassumption.
      * reflexivity.
      * apply existsb_exists. apply Exists_exists in Hdd. exact Hdd.
    + reflexivity.
    + rewrite queries_app. simpl. apply app_nil_r.
Qed.

Lemma FindFileInDir_not_ready sh dir ev s fargs a0 e1 e2 :
  ev_args ev [dir] (w_ext s) = (Ok fargs, e1) ->
  nth_error fargs 0 = Some a0 ->
  has_dotdot (trimSpaceBytes a0) = false ->
  cache_ready e1 = (false, e2) ->
  Eval_node (funcShellAndroidFindFileInDir sh dir) ev s
  = shell_Eval sh ev (after e2 [call_ready] s).
Proof.
  intros Hargs Hnth Hdd Hrdy. unfold has_dotdot in Hdd.
  simpl. unfold Eval_FindFileInDir. run. reflexivity.
Qed.

Lemma FindJavaResourceFileGroup_not_ready sh dir ev s fargs a0 e1 e2 :
  ev_args ev [dir] (w_ext s) = (Ok fargs, e1) ->
  nth_error fargs 0 = Some a0 ->
  has_dotdot (trimSpaceBytes a0) = false ->
  cache_ready e1 = (false, e2) ->
  Eval_node (funcShellAndroidFindJavaResourceFileGroup sh dir) ev s
  = shell_Eval sh ev (after e2 [call_ready] s).
Proof.
  intros Hargs Hnth Hdd Hrdy. unfold has_dotdot in Hdd.
  simpl. unfold Eval_FindJavaResourceFileGroup. run. reflexivity.
Qed.

Lemma FindExtFilesUnder_not_ready sh chdir roots ext ev s fargs a0 a1 e1 e2 :
  ev_args ev [chdir; roots] (w_ext s) = (Ok fargs, e1) ->
  nth_error fargs 0 = Some a0 ->
  nth_error fargs 1 = Some a1 ->
  has_dotdot (trimSpaceBytes a0) || existsb has_dotdot (wordScanner a1) = false ->
  cache_ready e1 = (false, e2) ->
  Eval_node (funcShellAndroidFindExtFilesUnder sh chdir roots ext) ev s
  = shell_Eval sh ev (after e2 [call_ready] s).
Proof.
  intros Hargs Hn0 Hn1 Hdd Hrdy. unfold has_dotdot at 1 in Hdd.
  simpl. unfold Eval_FindExtFilesUnder. run.
  rewrite scan_roots_spec. rewrite Hdd. run. reflexivity.
Qed.

Lemma Findleaves_not_ready sh prunes dirlist name mindepth ev s e0 :
  cache_leavesReady (w_ext s) = (false, e0) ->
  Eval_node (funcShellAndroidFindleaves sh prunes dirlist name mindepth) ev s
  = shell_Eval sh ev (after e0 [call_leavesReady] s).
Proof.
  intros Hrdy. simpl. unfold Eval_Findleaves. run. reflexivity.
Qed.

(** C3: when the find cache answers that it is not ready ([ready] for the
    three directory handlers, [leavesReady] for the leaf search), the
    handler returns what the original command returns, error or not, with
    nothing written and no listing query made. *)
Theorem not_ready_falls_back :
  (forall sh dir ev s fargs a0 e1 e2,
      ev_args ev [dir] (w_ext s) = (Ok fargs, e1) ->
      nth_error fargs 0 = Some a0 ->
      has_dotdot (trimSpaceBytes a0) = false ->
      cache_ready e1 = (false, e2) ->
      falls_back (funcShellAndroidFindFileInDir sh dir) sh ev s
        (after e2 [call_ready] s)) /\
  (forall sh chdir roots ext ev s fargs a0 a1 e1 e2,
      ev_args ev [chdir; roots] (w_ext s) = (Ok fargs, e1) ->
      nth_error fargs 0 = Some a0 ->
      nth_error fargs 1 = Some a1 ->
      has_dotdot (trimSpaceBytes a0) = false ->
      Forall (fun root => has_dotdot root = false) (wordScanner a1) ->
      cache_ready e1 = (false, e2) ->
      falls_back (funcShellAndroidFindExtFilesUnder sh chdir roots ext) sh ev s
        (after e2 [call_ready] s)) /\
  (forall sh dir ev s fargs a0 e1 e2,
      ev_args ev [dir] (w_ext s) = (Ok fargs, e1) ->
      nth_error fargs 0 = Some a0 ->
      has_dotdot (trimSpaceBytes a0) = false ->
      cache_ready e1 = (false, e2) ->
      falls_back (funcShellAndroidFindJavaResourceFileGroup sh dir) sh ev s
        (after e2 [call_ready] s)) /\
  (forall sh prunes dirlist name mindepth ev s e0,
      cache_leavesReady (w_ext s) = (false, e0) ->
      falls_back (funcShellAndroidFindleaves sh prunes dirlist name mindepth) sh ev s
        (after e0 [call_leavesReady] s)).
Proof.
  assert (Hq : forall e c (s : World), is_query c = false ->
                 queries (after e [c] s) = queries s).
  { intros e c s Hc. rewrite queries_app. simpl. rewrite Hc. apply app_nil_r. }
  split; [|split; [|split]].
  - intros. apply falls_back_intro; [|reflexivity|apply Hq; reflexivity].
    eapply FindFileInDir_not_ready; eassumption.
  - intros sh chdir roots ext ev s fargs a0 a1 e1 e2 Hargs Hn0 Hn1 Hd0 Hd1 Hrdy.
    apply falls_back_intro; [|reflexivity|apply Hq; reflexivity].
    eapply FindExtFilesUnder_not_ready; try eassumption.
    rewrite Hd0. simpl. apply not_true_is_false. intros Hex.
    apply existsb_exists in Hex. destruct Hex as [x [Hin Hx]].
    rewrite Forall_forall in Hd1. rewrite (Hd1 x Hin) in Hx. discriminate.
  - intros. apply falls_back_intro; [|reflexivity|apply Hq; reflexivity].
    eapply FindJavaResourceFileGroup_not_ready; eassumption.
  - intros. apply falls_back_intro; [|reflexivity|apply Hq; reflexivity].
    eapply Findleaves_not_ready; eassumption.
Qed.


(** *** The loop over the roots *)

Lemma after_after e1 cs1 e2 cs2 (s : World) :
  after e2 cs2 (after e1 cs1 s) = after e2 (cs1 ++ cs2) s.
Proof. unfold after. simpl. rewrite <- app_assoc. reflexivity. Qed.

Lemma ext_loop_step chdir ext root roots sw buf (s : World) o sw1 ok e1 :
  cache_findExtFilesUnder sw chdir root ext (w_ext s) = ((o, sw1, ok), e1) ->
  ext_loop chdir ext (root :: roots) sw buf s
  = (if negb ok then ret None else ext_loop chdir ext roots sw1 (buf ++ o))
      (after e1 [call_findExtFilesUnder chdir root ext] s).
Proof.
  intros H. simpl. unfold bind, findExtFilesUnder. rewrite H. reflexivity.
Qed.

Lemma ext_loop_prefix chdir ext pre sw buf e sw' buf' e' :
  all_succeed chdir ext pre sw buf e sw' buf' e' ->
  forall rest (s : World), w_ext s = e ->
    ext_loop chdir ext (pre ++ rest) sw buf s
    = ext_loop chdir ext rest sw' buf'
        (after e' (map (fun r => call_findExtFilesUnder chdir r ext) pre) s).
Proof.
  induction 1 as [sw buf e | root roots sw buf e o sw1 e1 sw' buf' e' Hq Hall IH];
    intros rest s Hs.
  - simpl. unfold after. rewrite app_nil_r. subst e. destruct s; reflexivity.
  - subst e. rewrite <- app_comm_cons.
    rewrite (ext_loop_step _ _ _ _ _ _ _ _ _ _ _ Hq). cbn [negb].
    rewrite IH by reflexivity. rewrite after_after. reflexivity.
Qed.

(** C2: once the handler has reached the loop over the roots (resolution
    done, no [".."], cache ready), a failed query for one root, after the
    queries for the roots before it succeeded, makes the handler return
    what the original command returns, with nothing written to [w] so far
    and no later root asked; the buffer reaches [w] when, and only when,
    the queries for all roots succeed. *)
Theorem ext_files_all_or_nothing
    sh chdir roots ext ev (s : World) fargs a0 a1 e1 e2 :
  ev_args ev [chdir; roots] (w_ext s) = (Ok fargs, e1) ->
  nth_error fargs 0 = Some a0 ->
  nth_error fargs 1 = Some a1 ->
  has_dotdot (trimSpaceBytes a0) || existsb has_dotdot (wordScanner a1) = false ->
  cache_ready e1 = (true, e2) ->
  let cd := string_of_bytes (trimSpaceBytes a0) in
  let rs := map string_of_bytes (wordScanner a1) in
  let asked := map (fun r => call_findExtFilesUnder cd r ext) in
  (forall pre r post sw buf e3 o sw' e4,
      rs = pre ++ r :: post ->
      all_succeed cd ext pre ssvWriter_new [] e2 sw buf e3 ->
      cache_findExtFilesUnder sw cd r ext e3 = ((o, sw', false), e4) ->
      Eval_node (funcShellAndroidFindExtFilesUnder sh chdir roots ext) ev s
      = shell_Eval sh ev (after e4 (call_ready :: asked (pre ++ [r])) s)) /\
  (forall sw buf e3,
      all_succeed cd ext rs ssvWriter_new [] e2 sw buf e3 ->
      Eval_node (funcShellAndroidFindExtFilesUnder sh chdir roots ext) ev s
      = (Ok tt, add_out buf (after e3 (call_ready :: asked rs) s))).
Proof.
  intros Hargs Hn0 Hn1 Hdd Hrdy cd rs asked.
  assert (Hstart :
    Eval_node (funcShellAndroidFindExtFilesUnder sh chdir roots ext) ev s
    = bind (ext_loop cd ext rs ssvWriter_new [])
        (fun b => match b with
                  | None => shell_Eval sh ev
                  | Some buf => w_Write buf
                  end)
        (after e2 [call_ready] s)).
  { unfold has_dotdot at 1 in Hdd.
    simpl. unfold Eval_FindExtFilesUnder. run.
    rewrite scan_roots_spec. rewrite Hdd. run. reflexivity. }
  split.
  - intros pre r post sw buf e3 o sw' e4 Hrs Hall Hfail.
    rewrite Hstart. unfold bind at 1. rewrite Hrs.
    rewrite (ext_loop_prefix _ _ _ _ _ _ _ _ _ Hall) by reflexivity.
    erewrite ext_loop_step by (simpl; exact Hfail).
    cbn [negb]. unfold ret. rewrite !after_after.
    unfold asked. rewrite map_app. reflexivity.
  - intros sw buf e3 Hall.
    rewrite Hstart. unfold bind at 1.
    rewrite <- (app_nil_r rs).
    rewrite (ext_loop_prefix _ _ _ _ _ _ _ _ _ Hall) by reflexivity.
    simpl. unfold ret, w_Write. rewrite after_after, app_nil_r. reflexivity.
Qed.

(** *** The loop over the directories of the leaf search *)

Lemma leaves_loop_calls name prunes mindepth dirs :
  forall sw (s : World),
    exists s',
      leaves_loop name prunes mindepth dirs sw s = (Ok tt, s') /\
      w_calls s'
      = w_calls s ++ map (fun d => call_findleaves d name prunes mindepth) dirs.
Proof.
  induction dirs as [|d dirs IH]; intros sw s.
  - exists s. simpl. rewrite app_nil_r. split; reflexivity.
  - simpl. unfold bind, findleaves.
    destruct (cache_findleaves sw d name prunes mindepth (w_ext s))
      as [[o sw'] e] eqn:Hq.
    destruct (IH sw'
      (add_call (call_findleaves d name prunes mindepth)
         (add_out o (set_ext e s)))) as [s' [Hrun Hcalls]].
    exists s'. split; [exact Hrun|].
    rewrite Hcalls. simpl. rewrite <- app_assoc. reflexivity.
Qed.

Lemma wrote_nil (s : World) : wrote [] (w_ext s) [] s = s.
Proof. unfold wrote. rewrite !app_nil_r. destruct s; reflexivity. Qed.

(** The loop of the leaf search, in full. *)
Lemma leaves_loop_run name prunes mindepth dirs :
  forall sw (s : World),
    leaves_loop name prunes mindepth dirs sw s
    = (Ok tt,
       wrote (fst (leaves_writes name prunes mindepth dirs sw (w_ext s)))
             (snd (leaves_writes name prunes mindepth dirs sw (w_ext s)))
             (map (fun d => call_findleaves d name prunes mindepth) dirs) s).
Proof.
  induction dirs as [|d dirs IH]; intros sw s.
  - cbn [leaves_loop leaves_writes map fst snd]. rewrite wrote_nil. reflexivity.
  - cbn [leaves_loop leaves_writes map]. unfold bind, findleaves.
    destruct (cache_findleaves sw d name prunes mindepth (w_ext s))
      as [[o sw'] e1] eqn:Hq.
    rewrite IH. cbn [w_ext add_call add_out set_ext].
    destruct (leaves_writes name prunes mindepth dirs sw' e1) as [o' e'].
    unfold wrote. cbn [fst snd w_out w_calls ShellDateTimestamp add_call add_out set_ext].
    rewrite <- !app_assoc. reflexivity.
Qed.

(** C9: in the leaf search only the tokens of the directory list are
    tested for [".."].  Whatever the resolved leaf name and prune values
    are, with or without [".."], when no directory token has it the handler
    returns no error and does not run the original command: it asks
    [findleaves] of the cache once per directory, in order, with the name
    and the prunes as resolved (surrounding space trimmed) and the node's
    [mindepth], through one [ssvWriter], and what those queries write is
    what reaches [w]. *)
Theorem findleaves_checks_dirlist_only
    sh prunes dirlist name mindepth ev (s : World) e0 fargs a0 a1 e1 :
  cache_leavesReady (w_ext s) = (true, e0) ->
  ev_args ev (name :: dirlist :: prunes) e0 = (Ok fargs, e1) ->
  nth_error fargs 0 = Some a0 ->
  nth_error fargs 1 = Some a1 ->
  Forall (fun dir => has_dotdot dir = false) (wordScanner a1) ->
  let nm := string_of_bytes (trimSpaceBytes a0) in
  let prs := map (fun arg => string_of_bytes (trimSpaceBytes arg)) (skipn 2 fargs) in
  let dirs := map string_of_bytes (wordScanner a1) in
  Eval_node (funcShellAndroidFindleaves sh prunes dirlist name mindepth) ev s
  = (Ok tt,
     wrote (fst (leaves_writes nm prs mindepth dirs ssvWriter_new e1))
           (snd (leaves_writes nm prs mindepth dirs ssvWriter_new e1))
           (call_leavesReady ::
            map (fun dir => call_findleaves dir nm prs mindepth) dirs) s) /\
  (forall dir dirs', dirs = dir :: dirs' ->
     forall o sw' e2,
       cache_findleaves ssvWriter_new dir nm prs mindepth e1 = ((o, sw'), e2) ->
       leaves_writes nm prs mindepth dirs ssvWriter_new e1
       = (o ++ fst (leaves_writes nm prs mindepth dirs' sw' e2),
          snd (leaves_writes nm prs mindepth dirs' sw' e2))) /\
  exists s',
    Eval_node (funcShellAndroidFindleaves sh prunes dirlist name mindepth) ev s
    = (Ok tt, s') /\
    w_calls s'
    = w_calls s ++
      call_leavesReady ::
      map (fun dir =>
             call_findleaves dir
               (string_of_bytes (trimSpaceBytes a0))
               (map (fun arg => string_of_bytes (trimSpaceBytes arg)) (skipn 2 fargs))
               mindepth)
          (map string_of_bytes (wordScanner a1)).
Proof.
  intros Hrdy Hargs Hn0 Hn1 Hdirs nm prs dirs.
  assert (Hno : existsb has_dotdot (wordScanner a1) = false).
  { apply not_true_is_false. intros Hex.
    apply existsb_exists in Hex. destruct Hex as [x [Hin Hx]].
    rewrite Forall_forall in Hdirs. rewrite (Hdirs x Hin) in Hx. discriminate. }
  assert (Hrun :
    Eval_node (funcShellAndroidFindleaves sh prunes dirlist name mindepth) ev s
    = (Ok tt,
       wrote (fst (leaves_writes nm prs mindepth dirs ssvWriter_new e1))
             (snd (leaves_writes nm prs mindepth dirs ssvWriter_new e1))
             (call_leavesReady ::
              map (fun dir => call_findleaves dir nm prs mindepth) dirs) s)).
  { cbn [Eval_node]. unfold Eval_Findleaves. run.
    rewrite scan_dirs_from, Hno. cbn [app].
    rewrite leaves_loop_run.
    unfold wrote, add_call, set_ext.
    cbn [w_out w_ext w_calls ShellDateTimestamp].
    rewrite <- app_assoc. reflexivity. }
  split; [exact Hrun|]. split.
  - intros dir dirs' Hd o sw' e2 Hq. rewrite Hd. cbn [leaves_writes].
    rewrite Hq.
    destruct (leaves_writes nm prs mindepth dirs' sw' e2) as [o' e']. reflexivity.
  - eexists. split; [exact Hrun|]. reflexivity.
Qed.

(** ** The compactors *)

Lemma find_subdir_assets_cases sh v0 v1 rest (s : World) :
  compact_find_subdir_assets sh (v0 :: v1 :: rest) s
  = match Value_eq v0 v1 with
    | Some true =>
        (Ok (funcShellAndroidFindFileInDir sh v0),
         after (cache_init (w_ext s)) [call_init] s)
    | Some false => (Ok (origShell sh), s)
    | None => (Panic, s)
    end.
Proof.
  unfold compact_find_subdir_assets.
  rewrite (bind_index (v0 :: v1 :: rest) 0 _ s v0) by reflexivity.
  rewrite (bind_index (v0 :: v1 :: rest) 1 _ s v1) by reflexivity.
  unfold bind, Value_neq.
  destruct (Value_eq v0 v1) as [[|]|]; reflexivity.
Qed.

(** C4: the compactor of find-subdir-assets compares its two captures as
    Go compares interface values (same dynamic type, then by content for a
    string or an integer, by address for a pointer).  Unequal captures give
    back the original node and leave the state alone; the find-file-in-dir
    node is built exactly when they are equal.  Two references at different
    addresses are unequal whatever they would resolve to. *)
Theorem find_subdir_assets_compares_captures :
  (forall sh v0 v1 rest (s : World),
      Value_eq v0 v1 = Some false ->
      compact_find_subdir_assets sh (v0 :: v1 :: rest) s = (Ok (origShell sh), s)) /\
  (forall sh v0 v1 rest (s : World),
      Value_eq v0 v1 = Some true ->
      compact_find_subdir_assets sh (v0 :: v1 :: rest) s
      = (Ok (funcShellAndroidFindFileInDir sh v0),
         after (cache_init (w_ext s)) [call_init] s)) /\
  (forall sh v0 v1 rest (s s' : World) sh' dir,
      compact_find_subdir_assets sh (v0 :: v1 :: rest) s
      = (Ok (funcShellAndroidFindFileInDir sh' dir), s') ->
      Value_eq v0 v1 = Some true /\ sh' = sh /\ dir = v0) /\
  (forall sh p q rest (s : World),
      p <> q ->
      compact_find_subdir_assets sh (varref p :: varref q :: rest) s
      = (Ok (origShell sh), s)).
Proof.
  split; [|split; [|split]].
  - intros sh v0 v1 rest s H. rewrite find_subdir_assets_cases, H. reflexivity.
  - intros sh v0 v1 rest s H. rewrite find_subdir_assets_cases, H. reflexivity.
  - intros sh v0 v1 rest s s' sh' dir H.
    rewrite find_subdir_assets_cases in H.
    destruct (Value_eq v0 v1) as [[|]|]; try discriminate H.
    injection H as <- <- _. repeat split.
  - intros sh p q rest s Hpq. rewrite find_subdir_assets_cases. simpl.
    apply Nat.eqb_neq in Hpq. rewrite Hpq. reflexivity.
Qed.

Lemma compactShellDate_literal range_order sh tf rest (s : World) :
  Time_IsZero (ShellDateTimestamp s) = false ->
  compactShellDate range_order sh (literal tf :: rest) s
  = (Ok (funcShellDate sh (shellDateReplace range_order tf)), s).
Proof.
  intros Hts. unfold compactShellDate, bind, get_ShellDateTimestamp.
  rewrite Hts. reflexivity.
Qed.

(** C5: the date compactor gives back the original node, and leaves the
    state alone, when [ShellDateTimestamp] is the zero time (whatever the
    captures) or when the first capture is not a literal; otherwise it
    builds a date node whose format is the capture with the directives
    already replaced. *)
Theorem compactShellDate_cases range_order sh :
  (forall v (s : World),
      Time_IsZero (ShellDateTimestamp s) = true ->
      compactShellDate range_order sh v s = (Ok (origShell sh), s)) /\
  (forall v0 rest (s : World),
      (forall tf, v0 <> literal tf) ->
      compactShellDate range_order sh (v0 :: rest) s = (Ok (origShell sh), s)) /\
  (forall tf rest (s : World),
      Time_IsZero (ShellDateTimestamp s) = false ->
      compactShellDate range_order sh (literal tf :: rest) s
      = (Ok (funcShellDate sh (shellDateReplace range_order tf)), s)).
Proof.
  split; [|split].
  - intros v s Hts. unfold compactShellDate, bind, get_ShellDateTimestamp.
    rewrite Hts. reflexivity.
  - intros v0 rest s Hlit. unfold compactShellDate, bind, get_ShellDateTimestamp.
    destruct (Time_IsZero (ShellDateTimestamp s)); [reflexivity|].
    unfold index, ret. cbn [nth_error].
    destruct v0 as [tf| | |]; try reflexivity.
    exfalso. exact (Hlit tf eq_refl).
  - intros tf rest s Hts. unfold compactShellDate, bind, get_ShellDateTimestamp.
    rewrite Hts. reflexivity.
Qed.

(** ** Evaluation of the date and rot13 nodes *)

Lemma Eval_Date_run sh format ev (s : World) :
  Eval_node (funcShellDate sh format) ev s
  = (Ok tt,
     add_out (bytes_of_string (Time_Format (ShellDateTimestamp s) format)) s).
Proof. reflexivity. Qed.

(** C10: evaluating a date node returns no error; what it writes is the
    reference timestamp formatted with the node's format, so two runs, under
    any two evaluators and states that agree on [ShellDateTimestamp], write
    the same bytes, and neither touches anything else. *)
Theorem date_eval_depends_on_timestamp_and_format
    sh format ev1 ev2 (s1 s2 : World) :
  ShellDateTimestamp s1 = ShellDateTimestamp s2 ->
  exists o,
    o = bytes_of_string (Time_Format (ShellDateTimestamp s1) format) /\
    Eval_node (funcShellDate sh format) ev1 s1 = (Ok tt, add_out o s1) /\
    Eval_node (funcShellDate sh format) ev2 s2 = (Ok tt, add_out o s2).
Proof.
  intros Hts. eexists. split; [reflexivity|].
  rewrite !Eval_Date_run, Hts. split; reflexivity.
Qed.

Lemma Eval_Rot13_run sh v ev (s : World) b rest e1 :
  ev_args ev [v] (w_ext s) = (Ok (b :: rest), e1) ->
  Eval_node (funcShellAndroidRot13 sh v) ev s
  = (Ok tt, add_out (Rot13.rot13 b) (set_ext e1 s)).
Proof.
  intros Hargs. cbn [Eval_node]. unfold Eval_Rot13.
  erewrite bind_args by eassumption.
  erewrite bind_index by reflexivity. reflexivity.
Qed.

(** C8: one application of [rot13] to a buffer moves the lower-case
    letter at any place 13 places on within ['a'-'z'], wrapping round, and
    an upper-case letter likewise within ['A'-'Z'], the buffer keeping its
    length; the rot13 node writes the rotation of the text its capture
    resolves to, whatever that text is, and returns no error: resolved to
    ["Hello"], it writes ["Uryyb"]. *)
Theorem rot13_shifts_by_13 :
  (forall b, Rot13.is_lower b = true ->
     N_of_ascii (Rot13.rot13_byte b)
     = (N_of_ascii "a" + (N_of_ascii b - N_of_ascii "a" + 13) mod 26)%N) /\
  (forall b, Rot13.is_upper b = true ->
     N_of_ascii (Rot13.rot13_byte b)
     = (N_of_ascii "A" + (N_of_ascii b - N_of_ascii "A" + 13) mod 26)%N) /\
  (forall sh v ev (s : World) rest e1,
     ev_args ev [v] (w_ext s) = (Ok (bytes_of_string "Hello" :: rest), e1) ->
     Eval_node (funcShellAndroidRot13 sh v) ev s
     = (Ok tt, add_out (bytes_of_string "Uryyb") (set_ext e1 s))) /\
  (forall buf, List.length (Rot13.rot13 buf) = List.length buf) /\
  (forall buf i b,
     nth_error buf i = Some b ->
     Rot13.is_lower b = true ->
     nth_error (Rot13.rot13 buf) i
     = Some (ascii_of_N
               (N_of_ascii "a" + (N_of_ascii b - N_of_ascii "a" + 13) mod 26))) /\
  (forall buf i b,
     nth_error buf i = Some b ->
     Rot13.is_upper b = true ->
     nth_error (Rot13.rot13 buf) i
     = Some (ascii_of_N
               (N_of_ascii "A" + (N_of_ascii b - N_of_ascii "A" + 13) mod 26))) /\
  (forall sh v ev (s : World) b rest e1,
     ev_args ev [v] (w_ext s) = (Ok (b :: rest), e1) ->
     Eval_node (funcShellAndroidRot13 sh v) ev s
     = (Ok tt, add_out (Rot13.rot13 b) (set_ext e1 s)) /\
     w_out (snd (Eval_node (funcShellAndroidRot13 sh v) ev s))
     = w_out s ++ Rot13.rot13 b).
Proof.
  split; [exact rot13_byte_lower|split; [exact rot13_byte_upper|]].
  split.
  { intros sh v ev s rest e1 Hargs.
    rewrite (Eval_Rot13_run _ _ _ _ _ _ _ Hargs). reflexivity. }
  split; [intros buf; unfold Rot13.rot13; apply length_map|].
  split.
  { intros buf i b Hnth Hb. unfold Rot13.rot13.
    rewrite nth_error_map, Hnth. cbn [option_map]. f_equal.
    rewrite <- (rot13_byte_lower b Hb). symmetry. apply ascii_N_embedding. }
  split.
  { intros buf i b Hnth Hb. unfold Rot13.rot13.
    rewrite nth_error_map, Hnth. cbn [option_map]. f_equal.
    rewrite <- (rot13_byte_upper b Hb). symmetry. apply ascii_N_embedding. }
  intros sh v ev s b rest e1 Hargs.
  rewrite (Eval_Rot13_run _ _ _ _ _ _ _ Hargs). split; reflexivity.
Qed.

(** ** Every path of an evaluation *)

Lemma bind_args_panic {B} ev vs (k : list bytes -> M B) s e1 :
  ev_args ev vs (w_ext s) = (Panic, e1) ->
  bind (args ev vs) k s = (Panic, set_ext e1 s).
Proof. intros H. unfold bind, args. rewrite H. reflexivity. Qed.

Lemma bind_index_none {A B} (l : list A) i (k : A -> M B) s :
  nth_error l i = None ->
  bind (index l i) k s = (Panic, s).
Proof. intros H. unfold bind, index. rewrite H. reflexivity. Qed.

Lemma bind_run {A B} (m : M A) (k : A -> M B) (s s' : World) a :
  m s = (Ok a, s') -> bind m k s = k a s'.
Proof. intros H. unfold bind. rewrite H. reflexivity. Qed.

Lemma shell_Eval_calls sh ev (s : World) :
  w_calls (snd (shell_Eval sh ev s)) = w_calls s ++ [call_original].
Proof.
  unfold shell_Eval.
  destruct (funcShell_Eval sh ev (w_ext s)) as [[o r] e]. reflexivity.
Qed.

Lemma after_nil (s : World) : after (w_ext s) [] s = s.
Proof. unfold after. rewrite app_nil_r. destruct s; reflexivity. Qed.

(** The loop over the roots writes nothing to [w] and makes listing
    queries only. *)
Lemma ext_loop_shape chdir ext roots :
  forall sw buf (s : World),
    exists r e' cs,
      ext_loop chdir ext roots sw buf s = (Ok r, after e' cs s) /\
      forallb is_query cs = true.
Proof.
  induction roots as [|root roots IH]; intros sw buf s.
  - exists (Some buf), (w_ext s), []. rewrite after_nil. split; reflexivity.
  - destruct (cache_findExtFilesUnder sw chdir root ext (w_ext s))
      as [[[o sw1] ok] e1] eqn:Hq.
    rewrite (ext_loop_step _ _ _ _ _ _ _ _ _ _ _ Hq).
    destruct ok; cbn [negb].
    + destruct (IH sw1 (buf ++ o)
                  (after e1 [call_findExtFilesUnder chdir root ext] s))
        as [r [e' [cs [Hrun Hcs]]]].
      exists r, e', (call_findExtFilesUnder chdir root ext :: cs).
      rewrite Hrun, after_after. split; [reflexivity|exact Hcs].
    + exists None, e1, [call_findExtFilesUnder chdir root ext].
      split; reflexivity.
Qed.

Lemma forallb_is_query_leaves name prunes mindepth dirs :
  forallb is_query (map (fun d => call_findleaves d name prunes mindepth) dirs)
  = true.
Proof. induction dirs as [|d dirs IH]; [reflexivity|exact IH]. Qed.

Ltac fallen_back pre :=
  left; eexists _, pre;
  split; [reflexivity|];
  split; [reflexivity|];
  split; [cbn; rewrite ?app_nil_r; reflexivity|reflexivity].

(** Either an evaluation is the original command's, begun where nothing
    has been written and only a native path has been gone through, or it
    is a native path from end to end. *)
Lemma Eval_node_shape n ev (s : World) :
  (exists s1 pre,
      Eval_node n ev s = shell_Eval (node_sh n) ev s1 /\
      w_out s1 = w_out s /\
      w_calls s1 = w_calls s ++ pre /\
      native_trace pre = true) \/
  (exists cs,
      w_calls (snd (Eval_node n ev s)) = w_calls s ++ cs /\
      native_trace cs = true).
Proof.
  assert (Hnone : forall (r : result error unit),
             exists cs, w_calls (snd (r, s)) = w_calls s ++ cs /\
                        native_trace cs = true).
  { intros r. exists []. rewrite app_nil_r. split; reflexivity. }
  assert (Hnone1 : forall (r : result error unit) e1,
             exists cs, w_calls (snd (r, set_ext e1 s)) = w_calls s ++ cs /\
                        native_trace cs = true).
  { intros r e1. exists []. cbn. rewrite app_nil_r. split; reflexivity. }
  destruct n as [sh|sh v|sh dir|sh chdir roots ext|sh dir|sh prunes dirlist name mindepth|sh format];
    cbn [Eval_node node_sh] in *.
  - (* the original command itself *)
    left. exists s, []. rewrite app_nil_r. repeat split.
  - (* rot13 *)
    right. unfold Eval_Rot13.
    destruct (ev_args ev [v] (w_ext s)) as [[fargs|err|] e1] eqn:Hargs.
    + erewrite bind_args by eassumption.
      destruct (nth_error fargs 0) as [a0|] eqn:Hn0.
      * erewrite bind_index by eassumption.
        exists []. cbn. rewrite app_nil_r. split; reflexivity.
      * erewrite bind_index_none by eassumption. apply Hnone1.
    + erewrite bind_args_err by eassumption. apply Hnone1.
    + erewrite bind_args_panic by eassumption. apply Hnone1.
  - (* find-file-in-dir *)
    unfold Eval_FindFileInDir.
    destruct (ev_args ev [dir] (w_ext s)) as [[fargs|err|] e1] eqn:Hargs.
    + erewrite bind_args by eassumption.
      destruct (nth_error fargs 0) as [a0|] eqn:Hn0.
      * erewrite bind_index by eassumption.
        destruct (Contains (string_of_bytes (trimSpaceBytes a0)) "..").
        -- fallen_back (@nil Call).
        -- destruct (cache_ready e1) as [rdy e2] eqn:Hrdy.
           erewrite bind_ready by (simpl; eassumption).
           destruct rdy; cbn [negb].
           ++ right. unfold bind, findInDir. cbn [w_ext add_call set_ext].
              destruct (cache_findInDir ssvWriter_new
                          (string_of_bytes (trimSpaceBytes a0)) e2)
                as [[o sw'] e3].
              exists [call_ready;
                      call_findInDir (string_of_bytes (trimSpaceBytes a0))].
              cbn. rewrite <- app_assoc. split; reflexivity.
           ++ fallen_back [call_ready].
      * right. erewrite bind_index_none by eassumption. apply Hnone1.
    + right. erewrite bind_args_err by eassumption. apply Hnone1.
    + right. erewrite bind_args_panic by eassumption. apply Hnone1.
  - (* extension files under roots *)
    unfold Eval_FindExtFilesUnder.
    destruct (ev_args ev [chdir; roots] (w_ext s)) as [[fargs|err|] e1] eqn:Hargs.
    + erewrite bind_args by eassumption.
      destruct (nth_error fargs 0) as [a0|] eqn:Hn0.
      * erewrite bind_index by eassumption.
        destruct (nth_error fargs 1) as [a1|] eqn:Hn1.
        -- erewrite bind_index by eassumption.
           rewrite scan_roots_spec.
           destruct (Contains (string_of_bytes (trimSpaceBytes a0)) ".."
                     || existsb has_dotdot (wordScanner a1)).
           ++ fallen_back (@nil Call).
           ++ destruct (cache_ready e1) as [rdy e2] eqn:Hrdy.
              erewrite bind_ready by (simpl; eassumption).
              destruct rdy; cbn [negb].
              ** destruct (ext_loop_shape
                             (string_of_bytes (trimSpaceBytes a0)) ext
                             (map string_of_bytes (wordScanner a1))
                             ssvWriter_new []
                             (add_call call_ready (set_ext e2 (set_ext e1 s))))
                   as [r [e' [cs [Hrun Hcs]]]].
                 rewrite (bind_run _ _ _ _ _ Hrun).
                 destruct r as [buf|].
                 --- right. exists (call_ready :: cs). cbn.
                     rewrite <- app_assoc. split; [reflexivity|exact Hcs].
                 --- left. exists (after e' (call_ready :: cs) s), (call_ready :: cs).
                     split; [|repeat split; exact Hcs].
                     f_equal. unfold after. cbn. rewrite <- app_assoc. reflexivity.
              ** fallen_back [call_ready].
        -- right. erewrite bind_index_none by eassumption. apply Hnone1.
      * right. erewrite bind_index_none by eassumption. apply Hnone1.
    + right. erewrite bind_args_err by eassumption. apply Hnone1.
    + right. erewrite bind_args_panic by eassumption. apply Hnone1.
  - (* java resource file group *)
    unfold Eval_FindJavaResourceFileGroup.
    destruct (ev_args ev [dir] (w_ext s)) as [[fargs|err|] e1] eqn:Hargs.
    + erewrite bind_args by eassumption.
      destruct (nth_error fargs 0) as [a0|] eqn:Hn0.
      * erewrite bind_index by eassumption.
        destruct (Contains (string_of_bytes (trimSpaceBytes a0)) "..").
        -- fallen_back (@nil Call).
        -- destruct (cache_ready e1) as [rdy e2] eqn:Hrdy.
           erewrite bind_ready by (simpl; eassumption).
           destruct rdy; cbn [negb].
           ++ right. unfold bind, findJavaResourceFileGroup.
              cbn [w_ext add_call set_ext].
              destruct (cache_findJavaResourceFileGroup ssvWriter_new
                          (string_of_bytes (trimSpaceBytes a0)) e2)
                as [[o sw'] e3].
              exists [call_ready;
                      call_findJavaResourceFileGroup
                        (string_of_bytes (trimSpaceBytes a0))].
              cbn. rewrite <- app_assoc. split; reflexivity.
           ++ fallen_back [call_ready].
      * right. erewrite bind_index_none by eassumption. apply Hnone1.
    + right. erewrite bind_args_err by eassumption. apply Hnone1.
    + right. erewrite bind_args_panic by eassumption. apply Hnone1.
  - (* findleaves *)
    unfold Eval_Findleaves.
    destruct (cache_leavesReady (w_ext s)) as [rdy e0] eqn:Hrdy.
    erewrite bind_leavesReady by eassumption.
    destruct rdy; cbn [negb app].
    + destruct (ev_args ev (name :: dirlist :: prunes) e0)
        as [[fargs|err|] e1] eqn:Hargs.
      * erewrite bind_args by (simpl; eassumption).
        destruct (nth_error fargs 0) as [a0|] eqn:Hn0.
        -- erewrite bind_index by eassumption.
           destruct (nth_error fargs 1) as [a1|] eqn:Hn1.
           ++ erewrite bind_index by eassumption.
              rewrite scan_dirs_from.
              destruct (existsb has_dotdot (wordScanner a1)).
              ** fallen_back [call_leavesReady].
              ** right. cbn [app]. rewrite leaves_loop_run.
                 eexists (call_leavesReady :: _). cbn.
                 rewrite <- app_assoc. split; [reflexivity|].
                 apply forallb_is_query_leaves.
           ++ right. erewrite bind_index_none by eassumption.
              exists [call_leavesReady]. split; reflexivity.
        -- right. erewrite bind_index_none by eassumption.
           exists [call_leavesReady]. split; reflexivity.
      * right. erewrite bind_args_err by (simpl; eassumption).
        exists [call_leavesReady]. split; reflexivity.
      * right. erewrite bind_args_panic by (simpl; eassumption).
        exists [call_leavesReady]. split; reflexivity.
    + fallen_back [call_leavesReady].
  - (* date *)
    right. exists []. cbn. rewrite app_nil_r. split; reflexivity.
Qed.

Lemma native_trace_only (cs : list Call) :
  native_trace cs = true ->
  ~ In call_original cs /\ ~ In call_init cs.
Proof.
  intros Hcs.
  assert (Hq : forall cs', forallb is_query cs' = true ->
                 ~ In call_original cs' /\ ~ In call_init cs').
  { intros cs' Hall. rewrite forallb_forall in Hall.
    split; intros Hin; apply Hall in Hin; discriminate Hin. }
  destruct cs as [|c cs']; [split; intros []|].
  destruct c; try discriminate Hcs; cbn [native_trace] in Hcs;
    destruct (Hq cs' Hcs) as [Ho Hi];
    split; intros [Heq|Hin]; try discriminate Heq; auto.
Qed.

Lemma strip_original_last (pre : list Call) :
  strip_original (pre ++ [call_original]) = pre.
Proof.
  unfold strip_original. rewrite rev_app_distr. cbn [rev app].
  apply rev_involutive.
Qed.

Lemma strip_original_native (cs : list Call) :
  native_trace cs = true -> strip_original cs = cs.
Proof.
  intros Hcs. unfold strip_original.
  destruct (rev cs) as [|c r] eqn:Hrev; [reflexivity|].
  destruct c; try reflexivity.
  exfalso. apply (proj1 (native_trace_only cs Hcs)).
  rewrite <- (rev_involutive cs), Hrev. cbn [rev].
  apply in_or_app. right. left. reflexivity.
Qed.

Lemma last_original_unique (pre pre' post : list Call) :
  ~ In call_original pre ->
  pre ++ [call_original] = pre' ++ call_original :: post ->
  post = [] /\ pre' = pre.
Proof.
  revert pre'. induction pre as [|c pre IH]; intros pre' Hno Heq.
  - destruct pre' as [|c' pre'].
    + injection Heq as <-. split; reflexivity.
    + cbn [app] in Heq. injection Heq as _ Heq. destruct pre'; discriminate Heq.
  - destruct pre' as [|c' pre'].
    + cbn [app] in Heq. injection Heq as -> _.
      exfalso. apply Hno. left. reflexivity.
    + cbn [app] in Heq. injection Heq as <- Heq.
      destruct (IH pre') as [Hpost Hpre].
      * intros Hin. apply Hno. right. exact Hin.
      * exact Heq.
      * split; [exact Hpost|]. rewrite Hpre. reflexivity.
Qed.

Lemma native_trace_head (cs : list Call) :
  native_trace cs = true ->
  cs <> [] ->
  exists cs', cs = call_ready :: cs' \/ cs = call_leavesReady :: cs'.
Proof.
  intros Hcs Hne. destruct cs as [|c cs']; [congruence|].
  destruct c; try discriminate Hcs; exists cs'; [left|right]; reflexivity.
Qed.

(** X1: whatever the node, the evaluator and the state, an evaluation
    either is the evaluation of the original command, begun in a state in
    which nothing more has been written to [w] (so that the result and
    every byte written are the original command's), or never runs the
    original command.  Native output and the original command's output are
    never mixed. *)
Theorem original_runs_alone n ev (s : World) :
  (exists s1,
      Eval_node n ev s = shell_Eval (node_sh n) ev s1 /\
      w_out s1 = w_out s) \/
  (exists cs,
      w_calls (snd (Eval_node n ev s)) = w_calls s ++ cs /\
      ~ In call_original cs).
Proof.
  destruct (Eval_node_shape n ev s) as [[s1 [pre [HE [Hout _]]]]|[cs [Hcalls Hcs]]].
  - left. exists s1. split; assumption.
  - right. exists cs. split; [exact Hcalls|].
    exact (proj1 (native_trace_only cs Hcs)).
Qed.

(** X2: the calls an evaluation adds keep to one order: at most one
    readiness check first, then listing queries, then at most one run of
    the original command, which is the last call.  So no listing query is
    made before the cache has been asked whether it is ready, the original
    command runs at most once, and [init] is never called by an
    evaluation. *)
Theorem eval_keeps_protocol n ev (s : World) :
  exists cs,
    w_calls (snd (Eval_node n ev s)) = w_calls s ++ cs /\
    eval_protocol cs = true /\
    ~ In call_init cs /\
    (existsb is_query cs = true ->
     exists cs', cs = call_ready :: cs' \/ cs = call_leavesReady :: cs') /\
    (forall pre post,
        cs = pre ++ call_original :: post ->
        post = [] /\ ~ In call_original pre).
Proof.
  destruct (Eval_node_shape n ev s) as [[s1 [pre [HE [_ [Hcalls Hpre]]]]]|[cs [Hcalls Hcs]]].
  - exists (pre ++ [call_original]).
    destruct (native_trace_only pre Hpre) as [Hno Hni].
    split; [|split; [|split; [|split]]].
    + rewrite HE, shell_Eval_calls, Hcalls, <- app_assoc. reflexivity.
    + unfold eval_protocol. rewrite strip_original_last. exact Hpre.
    + intros Hin. apply in_app_or in Hin. destruct Hin as [Hin|[Heq|[]]];
        [exact (Hni Hin)|discriminate Heq].
    + intros Hq. rewrite existsb_app in Hq. cbn in Hq. rewrite orb_false_r in Hq.
      assert (Hne : pre <> []) by (intros ->; discriminate Hq).
      destruct (native_trace_head pre Hpre Hne) as [cs' [-> | ->]];
        exists (cs' ++ [call_original]); [left|right]; reflexivity.
    + intros pre' post Heq.
      destruct (last_original_unique pre pre' post Hno Heq) as [Hpost Hpre'].
      split; [exact Hpost|]. rewrite Hpre'. exact Hno.
  - exists cs. destruct (native_trace_only cs Hcs) as [Hno Hni].
    split; [exact Hcalls|]. split; [|split; [exact Hni|split]].
    + unfold eval_protocol. rewrite strip_original_native by exact Hcs. exact Hcs.
    + intros Hq. apply native_trace_head; [exact Hcs|].
      intros ->. discriminate Hq.
    + intros pre post Heq. exfalso. apply Hno. rewrite Heq.
      apply in_or_app. right. left. reflexivity.
Qed.

Ltac norm_world :=
  unfold wrote, after, ret, w_Write, add_call, add_out, set_ext;
  cbn [w_out w_ext w_calls ShellDateTimestamp fst snd].

(** X3: an error of the resolution of the captures is the handler's
    result, in every handler that resolves: nothing is written, the
    original command is not run and no listing query is made (the leaf
    search has asked [leavesReady] before). *)
Theorem resolution_error_is_returned :
  (forall sh v ev (s : World) err e1,
      ev_args ev [v] (w_ext s) = (Err err, e1) ->
      Eval_node (funcShellAndroidRot13 sh v) ev s = (Err err, set_ext e1 s)) /\
  (forall sh dir ev (s : World) err e1,
      ev_args ev [dir] (w_ext s) = (Err err, e1) ->
      Eval_node (funcShellAndroidFindFileInDir sh dir) ev s
      = (Err err, set_ext e1 s)) /\
  (forall sh chdir roots ext ev (s : World) err e1,
      ev_args ev [chdir; roots] (w_ext s) = (Err err, e1) ->
      Eval_node (funcShellAndroidFindExtFilesUnder sh chdir roots ext) ev s
      = (Err err, set_ext e1 s)) /\
  (forall sh dir ev (s : World) err e1,
      ev_args ev [dir] (w_ext s) = (Err err, e1) ->
      Eval_node (funcShellAndroidFindJavaResourceFileGroup sh dir) ev s
      = (Err err, set_ext e1 s)) /\
  (forall sh prunes dirlist name mindepth ev (s : World) e0 err e1,
      cache_leavesReady (w_ext s) = (true, e0) ->
      ev_args ev (name :: dirlist :: prunes) e0 = (Err err, e1) ->
      Eval_node (funcShellAndroidFindleaves sh prunes dirlist name mindepth) ev s
      = (Err err, after e1 [call_leavesReady] s)).
Proof.
  split; [|split; [|split; [|split]]].
  - intros sh v ev s err e1 H. cbn [Eval_node]. unfold Eval_Rot13.
    erewrite bind_args_err by eassumption. reflexivity.
  - intros sh dir ev s err e1 H. cbn [Eval_node]. unfold Eval_FindFileInDir.
    erewrite bind_args_err by eassumption. reflexivity.
  - intros sh chdir roots ext ev s err e1 H. cbn [Eval_node].
    unfold Eval_FindExtFilesUnder.
    erewrite bind_args_err by eassumption. reflexivity.
  - intros sh dir ev s err e1 H. cbn [Eval_node].
    unfold Eval_FindJavaResourceFileGroup.
    erewrite bind_args_err by eassumption. reflexivity.
  - intros sh prunes dirlist name mindepth ev s e0 err e1 Hrdy H.
    cbn [Eval_node]. unfold Eval_Findleaves.
    erewrite bind_leavesReady by eassumption. cbn [negb app].
    erewrite bind_args_err by (simpl; eassumption). reflexivity.
Qed.

(** X4: the two one-directory handlers, on their native path (no [".."],
    cache ready), ask the cache once, with the resolved directory trimmed
    and a fresh [ssvWriter], write what that one query writes and return
    no error, without running the original command. *)
Theorem one_directory_native_path :
  (forall sh dir ev (s : World) fargs a0 e1 e2 o sw' e3,
      ev_args ev [dir] (w_ext s) = (Ok fargs, e1) ->
      nth_error fargs 0 = Some a0 ->
      has_dotdot (trimSpaceBytes a0) = false ->
      cache_ready e1 = (true, e2) ->
      cache_findInDir ssvWriter_new (string_of_bytes (trimSpaceBytes a0)) e2
      = ((o, sw'), e3) ->
      Eval_node (funcShellAndroidFindFileInDir sh dir) ev s
      = (Ok tt,
         wrote o e3
           [call_ready; call_findInDir (string_of_bytes (trimSpaceBytes a0))] s)) /\
  (forall sh dir ev (s : World) fargs a0 e1 e2 o sw' e3,
      ev_args ev [dir] (w_ext s) = (Ok fargs, e1) ->
      nth_error fargs 0 = Some a0 ->
      has_dotdot (trimSpaceBytes a0) = false ->
      cache_ready e1 = (true, e2) ->
      cache_findJavaResourceFileGroup ssvWriter_new
        (string_of_bytes (trimSpaceBytes a0)) e2
      = ((o, sw'), e3) ->
      Eval_node (funcShellAndroidFindJavaResourceFileGroup sh dir) ev s
      = (Ok tt,
         wrote o e3
           [call_ready;
            call_findJavaResourceFileGroup (string_of_bytes (trimSpaceBytes a0))] s)).
Proof.
  split.
  - intros sh dir ev s fargs a0 e1 e2 o sw' e3 Hargs Hn0 Hdd Hrdy Hq.
    unfold has_dotdot in Hdd. cbn [Eval_node]. unfold Eval_FindFileInDir. run.
    unfold bind, findInDir. cbn [w_ext add_call set_ext]. rewrite Hq.
    norm_world. rewrite <- app_assoc. reflexivity.
  - intros sh dir ev s fargs a0 e1 e2 o sw' e3 Hargs Hn0 Hdd Hrdy Hq.
    unfold has_dotdot in Hdd. cbn [Eval_node].
    unfold Eval_FindJavaResourceFileGroup. run.
    unfold bind, findJavaResourceFileGroup. cbn [w_ext add_call set_ext].
    rewrite Hq. norm_world. rewrite <- app_assoc. reflexivity.
Qed.

(** X5: the leaf search, on its native path, writes for each directory of
    the list, in order, what the query for it writes, all queries going
    through one [ssvWriter] (each receives the writer as the one before
    left it), and returns no error. *)
Theorem findleaves_native_path
    sh prunes dirlist name mindepth ev (s : World) e0 fargs a0 a1 e1 :
  cache_leavesReady (w_ext s) = (true, e0) ->
  ev_args ev (name :: dirlist :: prunes) e0 = (Ok fargs, e1) ->
  nth_error fargs 0 = Some a0 ->
  nth_error fargs 1 = Some a1 ->
  existsb has_dotdot (wordScanner a1) = false ->
  let nm := string_of_bytes (trimSpaceBytes a0) in
  let prs := map (fun arg => string_of_bytes (trimSpaceBytes arg)) (skipn 2 fargs) in
  let dirs := map string_of_bytes (wordScanner a1) in
  Eval_node (funcShellAndroidFindleaves sh prunes dirlist name mindepth) ev s
  = (Ok tt,
     wrote (fst (leaves_writes nm prs mindepth dirs ssvWriter_new e1))
           (snd (leaves_writes nm prs mindepth dirs ssvWriter_new e1))
           (call_leavesReady ::
            map (fun d => call_findleaves d nm prs mindepth) dirs) s).
Proof.
  intros Hrdy Hargs Hn0 Hn1 Hdd nm prs dirs.
  cbn [Eval_node]. unfold Eval_Findleaves. run.
  rewrite scan_dirs_from, Hdd. cbn [app].
  rewrite leaves_loop_run. norm_world.
  rewrite <- app_assoc. reflexivity.
Qed.

(** X6: with an empty list of roots (extension search) or of directories
    (leaf search) the native path is still taken: the handler returns no
    error, writes nothing, makes no listing query and does not run the
    original command. *)
Theorem empty_list_is_native :
  (forall sh chdir roots ext ev (s : World) fargs a0 a1 e1 e2,
      ev_args ev [chdir; roots] (w_ext s) = (Ok fargs, e1) ->
      nth_error fargs 0 = Some a0 ->
      nth_error fargs 1 = Some a1 ->
      has_dotdot (trimSpaceBytes a0) = false ->
      wordScanner a1 = [] ->
      cache_ready e1 = (true, e2) ->
      Eval_node (funcShellAndroidFindExtFilesUnder sh chdir roots ext) ev s
      = (Ok tt, after e2 [call_ready] s)) /\
  (forall sh prunes dirlist name mindepth ev (s : World) e0 fargs a0 a1 e1,
      cache_leavesReady (w_ext s) = (true, e0) ->
      ev_args ev (name :: dirlist :: prunes) e0 = (Ok fargs, e1) ->
      nth_error fargs 0 = Some a0 ->
      nth_error fargs 1 = Some a1 ->
      wordScanner a1 = [] ->
      Eval_node (funcShellAndroidFindleaves sh prunes dirlist name mindepth) ev s
      = (Ok tt, after e1 [call_leavesReady] s)).
Proof.
  split.
  - intros sh chdir roots ext ev s fargs a0 a1 e1 e2 Hargs Hn0 Hn1 Hdd Hws Hrdy.
    unfold has_dotdot in Hdd. cbn [Eval_node]. unfold Eval_FindExtFilesUnder. run.
    rewrite scan_roots_spec, Hws. cbn [map existsb orb]. run.
    cbn [ext_loop]. rewrite bind_ret. norm_world. rewrite app_nil_r. reflexivity.
  - intros sh prunes dirlist name mindepth ev s e0 fargs a0 a1 e1
      Hrdy Hargs Hn0 Hn1 Hws.
    cbn [Eval_node]. unfold Eval_Findleaves. run.
    rewrite Hws. reflexivity.
Qed.

(** ** The table of compactors *)

Lemma init_run {B} (k : unit -> M B) (s : World) :
  bind init k s = k tt (after (cache_init (w_ext s)) [call_init] s).
Proof. reflexivity. Qed.

Ltac index_cases H v i :=
  let a := fresh "a" in
  let Hn := fresh "Hn" in
  destruct (nth_error v i) as [a|] eqn:Hn;
  [ erewrite bind_index in H by eassumption
  | erewrite bind_index_none in H by eassumption ].

Ltac ok_inv H :=
  first [ discriminate H
        | injection H as <- <-; split; reflexivity ].

Lemma compact_rot13_contract : compactor_contract compact_rot13.
Proof.
  intros sh v s s' n H. unfold compact_rot13 in H.
  index_cases H v 0; ok_inv H.
Qed.

Lemma compact_find_subdir_assets_contract :
  compactor_contract compact_find_subdir_assets.
Proof.
  intros sh v s s' n H. unfold compact_find_subdir_assets in H.
  index_cases H v 0; [|ok_inv H].
  index_cases H v 1; [|ok_inv H].
  unfold bind at 1, Value_neq in H.
  destruct (Value_eq a a0) as [[|]|]; ok_inv H.
Qed.

Lemma compact_ext_files_under_contract ext :
  compactor_contract (compact_ext_files_under ext).
Proof.
  intros sh v s s' n H. unfold compact_ext_files_under in H.
  rewrite init_run in H.
  index_cases H v 0; [|ok_inv H].
  index_cases H v 1; ok_inv H.
Qed.

Lemma compact_java_resource_file_groups_contract :
  compactor_contract compact_java_resource_file_groups.
Proof.
  intros sh v s s' n H. unfold compact_java_resource_file_groups in H.
  rewrite init_run in H. ok_inv H.
Qed.

Lemma compact_subdir_cleanspecs_contract :
  compactor_contract compact_subdir_cleanspecs.
Proof.
  intros sh v s s' n H. unfold compact_subdir_cleanspecs in H.
  destruct (contains androidDefaultLeafNames "CleanSpec.mk"); cbn [negb] in H;
    [|ok_inv H].
  rewrite init_run in H. index_cases H v 0; ok_inv H.
Qed.

Lemma compact_findleaves_makefiles_contract mindepth :
  compactor_contract (compact_findleaves_makefiles mindepth).
Proof.
  intros sh v s s' n H. unfold compact_findleaves_makefiles in H.
  destruct (contains androidDefaultLeafNames "Android.mk"); cbn [negb] in H;
    [|ok_inv H].
  rewrite init_run in H.
  index_cases H v 0; [|ok_inv H].
  index_cases H v 1; ok_inv H.
Qed.

Lemma compactShellDate_contract range_order :
  compactor_contract (compactShellDate range_order).
Proof.
  intros sh v s s' n H. unfold compactShellDate in H.
  unfold bind at 1, get_ShellDateTimestamp in H.
  destruct (Time_IsZero (ShellDateTimestamp s)); [ok_inv H|].
  index_cases H v 0; [|ok_inv H].
  destruct a; ok_inv H.
Qed.

(** X7: whichever entry of [shBuiltins] compacts a command, the node it
    returns embeds (or is) that very command, so the fallback of a node is
    always the command it replaces; and the cache is initialised exactly
    when the node returned is one that asks the cache, the state being left
    as it was otherwise.  Nothing is written. *)
Theorem compactors_keep_the_command range_order b :
  In b (shBuiltins range_order) ->
  forall sh v (s s' : World) n,
    compact b sh v s = (Ok n, s') ->
    node_sh n = sh /\
    w_out s' = w_out s /\
    s' = if uses_cache n then after (cache_init (w_ext s)) [call_init] s else s.
Proof.
  intros Hin sh v s s' n H.
  assert (Hc : compactor_contract (compact b)).
  { unfold shBuiltins in Hin. cbn [In] in Hin.
    repeat (destruct Hin as [<-|Hin]; [cbn [compact]|]); try contradiction.
    - apply compact_rot13_contract.
    - apply compact_find_subdir_assets_contract.
    - apply compact_ext_files_under_contract.
    - apply compact_ext_files_under_contract.
    - apply compact_java_resource_file_groups_contract.
    - apply compact_subdir_cleanspecs_contract.
    - apply compact_findleaves_makefiles_contract.
    - apply compact_findleaves_makefiles_contract.
    - apply compactShellDate_contract.
    - apply compactShellDate_contract. }
  destruct (Hc sh v s s' n H) as [Hsh Hs'].
  split; [exact Hsh|]. split; [|exact Hs'].
  rewrite Hs'. destruct (uses_cache n); reflexivity.
Qed.

Lemma contains_In (l : list string) (x : string) :
  contains l x = true <-> In x l.
Proof.
  unfold contains. rewrite existsb_exists. split.
  - intros [y [Hin Heq]]. apply String.eqb_eq in Heq. subst y. exact Hin.
  - intros Hin. exists x. split; [exact Hin|apply String.eqb_refl].
Qed.

Ltac exact_length v :=
  repeat match goal with
         | H : List.length (?a :: ?l) = S _ |- _ => cbn [List.length] in H; injection H as H
         | H : List.length ?l = S _ |- _ =>
             let a := fresh "v" in destruct l as [|a l]; [discriminate H|]
         | H : List.length ?l = 0 |- _ =>
             destruct l; [clear H|discriminate H]
         end.

(** X8: a compactor never indexes past the captures its template yields.
    Given as many captures as the template of its entry has slots and
    groups, none of them a slice, every compactor of [shBuiltins] returns a
    node: it neither panics nor fails. *)
Theorem compactors_fit_their_templates range_order b :
  In b (shBuiltins range_order) ->
  forall sh v (s : World),
    List.length v = captures_of (pattern b) ->
    forallb is_capture v = true ->
    exists n s', compact b sh v s = (Ok n, s').
Proof.
  intros Hin sh v s Hlen Hcap.
  unfold shBuiltins in Hin. cbn [In] in Hin.
  repeat (destruct Hin as [<-|Hin]; [cbn [compact pattern] in *|]);
    try contradiction;
    match type of Hlen with
    | _ = ?r => let r' := eval vm_compute in r in change r with r' in Hlen
    end;
    exact_length v.
  - eexists _, _. reflexivity.
  - cbn [forallb] in Hcap.
    apply andb_true_iff in Hcap. destruct Hcap as [Hc0 Hcap].
    apply andb_true_iff in Hcap. destruct Hcap as [Hc1 _].
    unfold compact_find_subdir_assets.
    rewrite (bind_index _ 0 _ s v0) by reflexivity.
    rewrite (bind_index _ 1 _ s v1) by reflexivity.
    unfold bind at 1, Value_neq.
    destruct v0, v1; try discriminate Hc0; try discriminate Hc1; cbn [Value_eq];
      try (eexists _, _; reflexivity);
      match goal with
      | |- context [String.eqb ?a ?b] => destruct (String.eqb a b)
      | |- context [Z.eqb ?a ?b] => destruct (Z.eqb a b)
      | |- context [Nat.eqb ?a ?b] => destruct (Nat.eqb a b)
      end; eexists _, _; reflexivity.
  - eexists _, _. reflexivity.
  - eexists _, _. reflexivity.
  - eexists _, _. reflexivity.
  - unfold compact_subdir_cleanspecs.
    destruct (contains androidDefaultLeafNames "CleanSpec.mk");
      eexists _, _; reflexivity.
  - unfold compact_subdir_makefiles, compact_findleaves_makefiles.
    destruct (contains androidDefaultLeafNames "Android.mk");
      eexists _, _; reflexivity.
  - unfold compact_first_makefiles_under, compact_findleaves_makefiles.
    destruct (contains androidDefaultLeafNames "Android.mk");
      eexists _, _; reflexivity.
  - unfold compactShellDate, bind at 1, get_ShellDateTimestamp.
    destruct (Time_IsZero (ShellDateTimestamp s)); [eexists _, _; reflexivity|].
    destruct v0; eexists _, _; reflexivity.
  - unfold compactShellDate, bind at 1, get_ShellDateTimestamp.
    destruct (Time_IsZero (ShellDateTimestamp s)); [eexists _, _; reflexivity|].
    destruct v0; eexists _, _; reflexivity.
Qed.

(** X9: the three compactors of the leaf search leave the command alone,
    and the cache uninitialised, when the leaf name they look for
    ([CleanSpec.mk], [Android.mk]) is not among [androidDefaultLeafNames];
    when it is, the node they build prunes the captured directory, [.repo]
    and [.git], searches ["."] for the clean specs and the captured list
    for the makefiles, with no minimal depth except for
    first-makefiles-under, which asks for 2. *)
Theorem findleaves_compactors_are_gated :
  (~ In "CleanSpec.mk" androidDefaultLeafNames ->
   forall sh v (s : World),
     compact_subdir_cleanspecs sh v s = (Ok (origShell sh), s)) /\
  (~ In "Android.mk" androidDefaultLeafNames ->
   forall sh v (s : World),
     compact_subdir_makefiles sh v s = (Ok (origShell sh), s) /\
     compact_first_makefiles_under sh v s = (Ok (origShell sh), s)) /\
  (In "CleanSpec.mk" androidDefaultLeafNames ->
   forall sh v0 rest (s : World),
     compact_subdir_cleanspecs sh (v0 :: rest) s
     = (Ok (funcShellAndroidFindleaves sh [v0; literal ".repo"; literal ".git"]
              (literal ".") (literal "CleanSpec.mk") (-1)),
        after (cache_init (w_ext s)) [call_init] s)) /\
  (In "Android.mk" androidDefaultLeafNames ->
   forall sh v0 v1 rest (s : World),
     compact_subdir_makefiles sh (v0 :: v1 :: rest) s
     = (Ok (funcShellAndroidFindleaves sh [v0; literal ".repo"; literal ".git"]
              v1 (literal "Android.mk") (-1)),
        after (cache_init (w_ext s)) [call_init] s) /\
     compact_first_makefiles_under sh (v0 :: v1 :: rest) s
     = (Ok (funcShellAndroidFindleaves sh [v0; literal ".repo"; literal ".git"]
              v1 (literal "Android.mk") 2),
        after (cache_init (w_ext s)) [call_init] s)).
Proof.
  split; [|split; [|split]].
  - intros Hno sh v s. unfold compact_subdir_cleanspecs.
    destruct (contains androidDefaultLeafNames "CleanSpec.mk") eqn:Hc;
      [|reflexivity].
    apply contains_In in Hc. contradiction.
  - intros Hno sh v s.
    unfold compact_subdir_makefiles, compact_first_makefiles_under,
      compact_findleaves_makefiles.
    destruct (contains androidDefaultLeafNames "Android.mk") eqn:Hc;
      [|split; reflexivity].
    apply contains_In in Hc. contradiction.
  - intros Hin sh v0 rest s. unfold compact_subdir_cleanspecs.
    apply contains_In in Hin. rewrite Hin. reflexivity.
  - intros Hin sh v0 v1 rest s.
    unfold compact_subdir_makefiles, compact_first_makefiles_under,
      compact_findleaves_makefiles.
    apply contains_In in Hin. rewrite Hin. split; reflexivity.
Qed.

(** ** The rot13 node and the test for [".."] *)

(** X12: what one rot13 node writes, resolved as the capture of another,
    is written back as the text the first one started from; each writes
    exactly the rotation of its first resolved argument, returns no error
    and calls neither the cache nor the original command. *)
Theorem rot13_node_round_trip
    sh v ev (s : World) sh' v' ev' (s' : World) b rest rest' e1 e1' :
  ev_args ev [v] (w_ext s) = (Ok (b :: rest), e1) ->
  ev_args ev' [v'] (w_ext s') = (Ok (Rot13.rot13 b :: rest'), e1') ->
  Eval_node (funcShellAndroidRot13 sh v) ev s
  = (Ok tt, add_out (Rot13.rot13 b) (set_ext e1 s)) /\
  Eval_node (funcShellAndroidRot13 sh' v') ev' s'
  = (Ok tt, add_out b (set_ext e1' s')).
Proof.
  intros H H'. cbn [Eval_node]. unfold Eval_Rot13. split.
  - erewrite bind_args by eassumption.
    erewrite bind_index by reflexivity. reflexivity.
  - erewrite bind_args by eassumption.
    erewrite bind_index by reflexivity.
    unfold w_Write. rewrite rot13_involutive. reflexivity.
Qed.

Lemma prefix_iff (p s : string) :
  prefix p s = true <-> exists b, s = (p ++ b)%string.
Proof.
  revert s. induction p as [|c p IH]; intros s.
  - split; [intros _; exists s; reflexivity|intros _; destruct s; reflexivity].
  - destruct s as [|c' s].
    + split; [discriminate|intros [b Hb]; discriminate Hb].
    + cbn [prefix append]. destruct (ascii_dec c c') as [<-|Hne].
      * rewrite IH. split; intros [b Hb]; exists b.
        -- rewrite Hb. reflexivity.
        -- injection Hb as Hb. exact Hb.
      * split; [discriminate|intros [b Hb]]. injection Hb as Hc _. congruence.
Qed.

(** X13: [strings.Contains], as used for the test on a resolved token:
    it holds exactly when the text can be cut into a part before, the
    sought text, and a part after.  So the handlers' test holds exactly
    when the token has two dots in a row somewhere: it is a test on the
    characters, not on path components, and a name such as [a..b] is
    turned away like [../x]. *)
Theorem has_dotdot_iff :
  (forall s sub : string,
      Contains s sub = true <-> exists a b, s = (a ++ sub ++ b)%string) /\
  (forall wb : bytes,
      has_dotdot wb = true <->
      exists a b, string_of_bytes wb = (a ++ ".." ++ b)%string).
Proof.
  assert (HC : forall s sub : string,
             Contains s sub = true <-> exists a b, s = (a ++ sub ++ b)%string).
  { intros s sub. induction s as [|c s IH].
    - cbn [Contains]. rewrite orb_false_r, prefix_iff. split.
      + intros [b Hb]. exists EmptyString, b. exact Hb.
      + intros [a [b Hab]]. destruct a; [exists b; exact Hab|discriminate Hab].
    - cbn [Contains]. rewrite orb_true_iff, prefix_iff, IH. split.
      + intros [[b Hb]|[a [b Hab]]].
        * exists EmptyString, b. exact Hb.
        * exists (String c a), b. rewrite Hab. reflexivity.
      + intros [a [b Hab]]. destruct a as [|c' a].
        * left. exists b. exact Hab.
        * right. injection Hab as _ Hab. exists a, b. exact Hab. }
  split; [exact HC|].
  intros wb. unfold has_dotdot. apply HC.
Qed.

(** X17: the two loops over the scanned words agree.  The one of the
    extension search collects every word, in order and with repetitions,
    whether or not a [".."] is met, and raises its flag exactly when some
    word has [".."]; the one of the leaf search returns early exactly in
    that case and otherwise collects the same list. *)
Theorem word_scans_agree (words : list bytes) :
  scan_roots words
  = (map string_of_bytes words, existsb has_dotdot words) /\
  scan_dirs words []
  = (if existsb has_dotdot words then None
     else Some (map string_of_bytes words)) /\
  (snd (scan_roots words) = true <-> scan_dirs words [] = None) /\
  (scan_dirs words [] = Some (fst (scan_roots words)) \/ scan_dirs words [] = None).
Proof.
  rewrite scan_roots_spec, scan_dirs_from. cbn [fst snd app].
  split; [reflexivity|]. split; [reflexivity|].
  destruct (existsb has_dotdot words); split.
  - split; reflexivity.
  - right. reflexivity.
  - split; discriminate.
  - left. reflexivity.
Qed.

End HandlerFacts.

(** ** The date format *)

Section DateFormat.

Local Open Scope string_scope.

Lemma Contains_percent_cons (c : ascii) (t : string) :
  Contains (String c t) "%" = false ->
  c <> "%"%char /\ Contains t "%" = false.
Proof.
  cbn [Contains prefix]. destruct (ascii_dec "%" c) as [<-|Hne].
  - intros H. destruct t; discriminate H.
  - cbn [orb]. intros H. split; [congruence|exact H].
Qed.

Lemma Replace_directive (s : string) (d : ascii) (v : string) :
  Replace s (directive d) v = Replace_from 0 s (directive d) v.
Proof. reflexivity. Qed.

Lemma Replace_from_other (c d : ascii) (s v : string) :
  c <> "%"%char ->
  Replace_from 0 (String c s) (directive d) v
  = String c (Replace_from 0 s (directive d) v).
Proof.
  intros Hc. cbn [Replace_from prefix directive].
  destruct (ascii_dec "%" c) as [<-|_]; [congruence|reflexivity].
Qed.

Lemma Replace_from_hit (d : ascii) (s v : string) :
  Replace_from 0 (String "%" (String d s)) (directive d) v
  = (v ++ Replace_from 0 s (directive d) v)%string.
Proof.
  cbn [Replace_from prefix directive length Nat.sub].
  destruct (ascii_dec "%" "%") as [_|Hne]; [|congruence].
  destruct (ascii_dec d d) as [_|Hne]; [|congruence].
  destruct s; reflexivity.
Qed.

Lemma Replace_from_miss (d : ascii) (s v : string) :
  starts_with d s = false ->
  Replace_from 0 (String "%" s) (directive d) v
  = String "%" (Replace_from 0 s (directive d) v).
Proof.
  intros Hs. destruct s as [|c s]; [reflexivity|].
  simpl in Hs. cbn [Replace_from prefix directive].
  destruct (ascii_dec "%" "%") as [_|Hne]; [|congruence].
  destruct (ascii_dec d c) as [<-|_].
  - rewrite Ascii.eqb_refl in Hs. discriminate.
  - reflexivity.
Qed.

Lemma Replace_from_token (t s : string) (d : ascii) (v : string) :
  Contains t "%" = false ->
  Replace_from 0 (t ++ s) (directive d) v
  = (t ++ Replace_from 0 s (directive d) v)%string.
Proof.
  induction t as [|c t IH]; intros Ht.
  - reflexivity.
  - apply Contains_percent_cons in Ht. destruct Ht as [Hc Ht].
    change ((String c t ++ s)%string) with (String c (t ++ s)).
    rewrite Replace_from_other by assumption.
    rewrite IH by assumption. reflexivity.
Qed.


(** Induction two characters at a time, as [pretranslate_with] recurses. *)
Lemma string_pair_ind (P : string -> Prop) :
  P EmptyString ->
  (forall c, P (String c EmptyString)) ->
  (forall c d s, P s -> P (String d s) -> P (String c (String d s))) ->
  forall s, P s.
Proof.
  intros H0 H1 H2 s.
  enough (H : P s /\ forall c, P (String c s)) by exact (proj1 H).
  induction s as [|d s [IHs IHc]].
  - split; [exact H0|exact H1].
  - split; [apply IHc|]. intros c. apply H2; [exact IHs|apply IHc].
Qed.

Lemma pretranslate_other table (c : ascii) (s : string) :
  c <> "%"%char ->
  pretranslate_with table (String c s) = String c (pretranslate_with table s).
Proof.
  intros Hc. apply Ascii.eqb_neq in Hc.
  destruct s as [|d s]; [reflexivity|].
  cbn [pretranslate_with]. rewrite Hc. reflexivity.
Qed.

Lemma pretranslate_hit table (d : ascii) (s tok : string) :
  directive_token_in table d = Some tok ->
  pretranslate_with table (String "%" (String d s))
  = (tok ++ pretranslate_with table s)%string.
Proof.
  intros Ht. cbn [pretranslate_with]. rewrite Ascii.eqb_refl, Ht. reflexivity.
Qed.

Lemma pretranslate_miss table (d : ascii) (s : string) :
  directive_token_in table d = None ->
  pretranslate_with table (String "%" (String d s))
  = String "%" (pretranslate_with table (String d s)).
Proof.
  intros Ht. cbn [pretranslate_with]. rewrite Ascii.eqb_refl, Ht. reflexivity.
Qed.

Lemma directive_letter_not_percent (d : ascii) :
  is_directive_letter d = true -> d <> "%"%char.
Proof. intros H ->. discriminate H. Qed.

Lemma token_ok_starts (d : ascii) (tok : string) :
  token_ok tok = true -> is_directive_letter d = true ->
  starts_with d tok = false.
Proof.
  unfold token_ok. intros Htok Hd.
  apply andb_true_iff in Htok. destruct Htok as [_ Hhead].
  destruct tok as [|c tok]; [reflexivity|]. cbn [starts_with].
  apply Ascii.eqb_neq. intros ->. rewrite Hd in Hhead. discriminate.
Qed.

Lemma token_ok_no_percent (tok : string) :
  token_ok tok = true -> Contains tok "%" = false.
Proof.
  unfold token_ok. intros Htok.
  apply andb_true_iff in Htok. destruct Htok as [H _].
  apply negb_true_iff in H. exact H.
Qed.

Lemma starts_with_append (d : ascii) (tok s : string) :
  tok <> EmptyString ->
  starts_with d (tok ++ s) = starts_with d tok.
Proof. destruct tok; [congruence|reflexivity]. Qed.

Lemma pretranslate_starts table (d : ascii) (s : string) :
  tokens_ok table ->
  is_directive_letter d = true ->
  starts_with d s = false ->
  starts_with d (pretranslate_with table s) = false.
Proof.
  intros Hok Hd Hs.
  destruct s as [|c s]; [reflexivity|].
  destruct (ascii_dec c "%") as [->|Hc].
  - destruct s as [|d2 s]; [apply Ascii.eqb_neq; intros <-; discriminate Hd|].
    destruct (directive_token_in table d2) as [tok|] eqn:Ht.
    + rewrite (pretranslate_hit _ _ _ _ Ht).
      pose proof (Hok _ _ Ht) as Htok.
      rewrite starts_with_append.
      * apply token_ok_starts; assumption.
      * intros ->. discriminate Htok.
    + rewrite (pretranslate_miss _ _ _ Ht). exact Hs.
  - rewrite pretranslate_other by assumption. exact Hs.
Qed.

Lemma directive_eqb (d d' : ascii) :
  String.eqb (directive d') (directive d) = Ascii.eqb d' d.
Proof.
  unfold directive. cbn [String.eqb]. rewrite Ascii.eqb_refl.
  destruct (Ascii.eqb d' d); reflexivity.
Qed.

Lemma directive_token_in_app table table' (d : ascii) :
  directive_token_in (table ++ table') d
  = match directive_token_in table d with
    | Some tok => Some tok
    | None => directive_token_in table' d
    end.
Proof.
  unfold directive_token_in.
  induction table as [|kv table IH]; [reflexivity|].
  cbn [app find]. destruct (String.eqb (fst kv) (directive d)); [reflexivity|exact IH].
Qed.

Lemma directive_token_in_single (d d' : ascii) (v : string) :
  directive_token_in [(directive d, v)] d'
  = if Ascii.eqb d d' then Some v else None.
Proof.
  unfold directive_token_in. cbn [find fst]. rewrite directive_eqb.
  destruct (Ascii.eqb d d'); reflexivity.
Qed.

(** One round of the loop: replacing the directive [%d] in a format in
    which the directives of [table] are already replaced is replacing the
    directives of the larger table in one pass. *)
Lemma Replace_step table (d : ascii) (v s : string) :
  tokens_ok table ->
  is_directive_letter d = true ->
  directive_token_in table d = None ->
  Replace (pretranslate_with table s) (directive d) v
  = pretranslate_with (table ++ [(directive d, v)]) s.
Proof.
  intros Hok Hd Hfresh. rewrite Replace_directive.
  pose proof (directive_letter_not_percent d Hd) as Hdp.
  induction s as [|c|c d2 s IH1 IH2] using string_pair_ind.
  - reflexivity.
  - destruct (ascii_dec c "%") as [->|Hc].
    + reflexivity.
    + cbn [pretranslate_with]. rewrite Replace_from_other by assumption.
      reflexivity.
  - destruct (ascii_dec c "%") as [->|Hc].
    + destruct (directive_token_in table d2) as [tok|] eqn:Ht.
      * rewrite (pretranslate_hit _ _ _ _ Ht).
        rewrite Replace_from_token by (apply token_ok_no_percent; eauto).
        rewrite IH1. symmetry. apply pretranslate_hit.
        rewrite directive_token_in_app, Ht. reflexivity.
      * rewrite (pretranslate_miss _ _ _ Ht).
        destruct (ascii_dec d2 d) as [->|Hd2].
        -- rewrite pretranslate_other by assumption.
           rewrite Replace_from_hit, IH1. symmetry. apply pretranslate_hit.
           rewrite directive_token_in_app, Ht, directive_token_in_single.
           rewrite Ascii.eqb_refl. reflexivity.
        -- rewrite Replace_from_miss.
           ++ rewrite IH2. symmetry. apply pretranslate_miss.
              rewrite directive_token_in_app, Ht, directive_token_in_single.
              apply Ascii.eqb_neq in Hd2. rewrite Ascii.eqb_sym, Hd2. reflexivity.
           ++ apply pretranslate_starts; try assumption.
              cbn [starts_with]. apply Ascii.eqb_neq. exact Hd2.
    + rewrite (pretranslate_other table c) by assumption.
      rewrite (pretranslate_other (table ++ _) c) by assumption.
      rewrite Replace_from_other by assumption. rewrite IH2. reflexivity.
Qed.


Lemma pretranslate_nil (s : string) : pretranslate_with [] s = s.
Proof.
  induction s as [|c|c d s IH1 IH2] using string_pair_ind.
  - reflexivity.
  - reflexivity.
  - destruct (ascii_dec c "%") as [->|Hc].
    + rewrite pretranslate_miss by reflexivity. rewrite IH2. reflexivity.
    + rewrite pretranslate_other by assumption. rewrite IH2. reflexivity.
Qed.

Lemma pretranslate_ext table table' :
  (forall d, directive_token_in table d = directive_token_in table' d) ->
  forall s, pretranslate_with table s = pretranslate_with table' s.
Proof.
  intros Hext s.
  induction s as [|c|c d s IH1 IH2] using string_pair_ind.
  - reflexivity.
  - reflexivity.
  - destruct (ascii_dec c "%") as [->|Hc].
    + destruct (directive_token_in table d) as [tok|] eqn:Ht.
      * rewrite (pretranslate_hit table _ _ _ Ht).
        rewrite Hext in Ht. rewrite (pretranslate_hit table' _ _ _ Ht).
        rewrite IH1. reflexivity.
      * rewrite (pretranslate_miss table _ _ Ht).
        rewrite Hext in Ht. rewrite (pretranslate_miss table' _ _ Ht).
        rewrite IH2. reflexivity.
    + rewrite (pretranslate_other table c), (pretranslate_other table' c)
        by assumption.
      rewrite IH2. reflexivity.
Qed.

Lemma directive_token_in_In table (d : ascii) (tok : string) :
  directive_token_in table d = Some tok -> In (directive d, tok) table.
Proof.
  unfold directive_token_in. intros H.
  destruct (find _ table) as [[k v]|] eqn:Hf; [|discriminate H].
  injection H as <-. apply find_some in Hf. destruct Hf as [Hin Hk].
  cbn [fst] in Hk. apply String.eqb_eq in Hk. subst k. exact Hin.
Qed.

Lemma In_directive_token_in table (d : ascii) (tok : string) :
  NoDup (map fst table) ->
  In (directive d, tok) table ->
  directive_token_in table d = Some tok.
Proof.
  unfold directive_token_in.
  induction table as [|[k v] table IH]; intros Hnd Hin; [contradiction|].
  cbn [map fst] in Hnd. inversion Hnd as [|? ? Hk Hnd']; subst.
  cbn [find fst]. destruct Hin as [Heq|Hin].
  - injection Heq as -> ->. rewrite String.eqb_refl. reflexivity.
  - destruct (String.eqb k (directive d)) eqn:Hkd.
    + apply String.eqb_eq in Hkd. subst k. exfalso. apply Hk.
      apply in_map_iff. exists (directive d, tok). split; [reflexivity|exact Hin].
    + apply IH; assumption.
Qed.

Lemma directive_token_in_perm table table' (d : ascii) :
  NoDup (map fst table) ->
  Permutation table table' ->
  directive_token_in table d = directive_token_in table' d.
Proof.
  intros Hnd Hperm.
  assert (Hnd' : NoDup (map fst table')).
  { eapply Permutation_NoDup; [|exact Hnd]. apply Permutation_map. exact Hperm. }
  destruct (directive_token_in table' d) as [tok'|] eqn:Ht'.
  - apply In_directive_token_in; [exact Hnd|].
    apply directive_token_in_In in Ht'.
    eapply Permutation_in; [apply Permutation_sym; exact Hperm|exact Ht'].
  - destruct (directive_token_in table d) as [tok|] eqn:Ht; [|reflexivity].
    apply directive_token_in_In in Ht.
    apply (Permutation_in _ Hperm) in Ht.
    apply (In_directive_token_in _ _ _ Hnd') in Ht. congruence.
Qed.

Lemma entry_ok_inv (kv : string * string) :
  entry_ok kv = true ->
  exists d, fst kv = directive d /\ is_directive_letter d = true /\
            token_ok (snd kv) = true.
Proof.
  unfold entry_ok. destruct kv as [k v]. cbn [fst snd].
  destruct k as [|c [|d [|? ?]]]; try discriminate.
  intros H. apply andb_true_iff in H. destruct H as [H Hv].
  apply andb_true_iff in H. destruct H as [Hc Hd].
  apply Ascii.eqb_eq in Hc. subst c. exists d. repeat split; assumption.
Qed.

(** The loop, begun on a format in which the directives of [table] are
    replaced, ends on the one-pass replacement by [table] and the entries
    visited. *)
Lemma shellDateReplace_from order :
  forall table s,
    Forall (fun kv => entry_ok kv = true) order ->
    NoDup (map fst (table ++ order)) ->
    tokens_ok table ->
    shellDateReplace order (pretranslate_with table s)
    = pretranslate_with (table ++ order) s.
Proof.
  induction order as [|kv order IH]; intros table s Hall Hnd Hok.
  - rewrite app_nil_r. reflexivity.
  - inversion Hall as [|? ? Hkv Hall']; subst.
    destruct (entry_ok_inv _ Hkv) as [d [Hk [Hd Hv]]].
    destruct kv as [k v]. cbn [fst snd] in Hk, Hv. subst k.
    assert (Hfresh : directive_token_in table d = None).
    { destruct (directive_token_in table d) as [tok|] eqn:Ht; [|reflexivity].
      exfalso. apply directive_token_in_In in Ht.
      rewrite map_app in Hnd. cbn [map fst] in Hnd.
      apply NoDup_remove_2 in Hnd. apply Hnd. apply in_or_app. left.
      apply in_map_iff. exists (directive d, tok). split; [reflexivity|exact Ht]. }
    unfold shellDateReplace. cbn [fold_left fst snd].
    rewrite Replace_step by assumption.
    change (fold_left _ order ?x) with (shellDateReplace order x).
    rewrite IH.
    + rewrite <- app_assoc. reflexivity.
    + exact Hall'.
    + rewrite <- app_assoc. exact Hnd.
    + intros d' tok Ht. rewrite directive_token_in_app in Ht.
      destruct (directive_token_in table d') as [tok0|] eqn:Ht0.
      * injection Ht as <-. eapply Hok. exact Ht0.
      * rewrite directive_token_in_single in Ht.
        destruct (Ascii.eqb d d'); [|discriminate Ht].
        injection Ht as <-. exact Hv.
Qed.

Lemma shellDateFormatRef_ok :
  Forall (fun kv => entry_ok kv = true) shellDateFormatRef.
Proof. repeat constructor. Qed.

Lemma shellDateFormatRef_keys : NoDup (map fst shellDateFormatRef).
Proof.
  repeat constructor; cbn [map fst shellDateFormatRef In]; intuition discriminate.
Qed.

(** Whatever order the map is visited in, the loop computes the one-pass
    replacement. *)
Lemma shellDateReplace_spec order (tf : string) :
  is_range_order order ->
  shellDateReplace order tf = pretranslate_spec tf.
Proof.
  unfold is_range_order. intros Hperm.
  rewrite <- (pretranslate_nil tf) at 1.
  rewrite shellDateReplace_from.
  - cbn [app]. unfold pretranslate_spec. apply pretranslate_ext. intros d.
    symmetry. apply directive_token_in_perm; [exact shellDateFormatRef_keys|exact Hperm].
  - eapply Permutation_Forall; [exact Hperm|exact shellDateFormatRef_ok].
  - cbn [app]. eapply Permutation_NoDup; [|exact shellDateFormatRef_keys].
    apply Permutation_map. exact Hperm.
  - intros d tok Ht. discriminate Ht.
Qed.


Lemma append_assoc3 (a b c : string) :
  ((a ++ b) ++ c = a ++ (b ++ c))%string.
Proof. induction a as [|x a IH]; [reflexivity|]. cbn [append]. rewrite IH. reflexivity. Qed.

Lemma In_directive_token (k tok : string) :
  In (k, tok) shellDateFormatRef ->
  exists d, k = directive d /\ directive_token d = Some tok.
Proof.
  intros Hin.
  pose proof shellDateFormatRef_ok as Hok. rewrite Forall_forall in Hok.
  destruct (entry_ok_inv _ (Hok _ Hin)) as [d [Hk _]]. cbn [fst] in Hk. subst k.
  exists d. split; [reflexivity|].
  apply In_directive_token_in; [exact shellDateFormatRef_keys|exact Hin].
Qed.

(** An occurrence of a directive, wherever it stands, becomes its token,
    and the text before and after it is translated on its own. *)
Lemma pretranslate_spec_occurrence (a b k tok : string) :
  In (k, tok) shellDateFormatRef ->
  pretranslate_spec (a ++ k ++ b)
  = (pretranslate_spec a ++ tok ++ pretranslate_spec b)%string.
Proof.
  intros Hin. destruct (In_directive_token _ _ Hin) as [d [-> Ht]].
  unfold pretranslate_spec. unfold directive_token in Ht.
  induction a as [|c|c d2 a IH1 IH2] using string_pair_ind.
  - cbn [append]. apply pretranslate_hit. exact Ht.
  - cbn [append directive]. destruct (ascii_dec c "%") as [->|Hc].
    + rewrite pretranslate_miss by reflexivity.
      rewrite (pretranslate_hit _ _ _ _ Ht). reflexivity.
    + rewrite pretranslate_other by assumption.
      rewrite (pretranslate_hit _ _ _ _ Ht). reflexivity.
  - change ((String c (String d2 a) ++ directive d ++ b)%string)
      with (String c (String d2 (a ++ directive d ++ b))).
    change ((String d2 a ++ directive d ++ b)%string)
      with (String d2 (a ++ directive d ++ b)) in IH2.
    destruct (ascii_dec c "%") as [->|Hc].
    + destruct (directive_token_in shellDateFormatRef d2) as [t|] eqn:Ht2.
      * rewrite !(pretranslate_hit _ _ _ _ Ht2). rewrite IH1.
        rewrite append_assoc3. reflexivity.
      * rewrite !(pretranslate_miss _ _ _ Ht2). rewrite IH2. reflexivity.
    + rewrite (pretranslate_other _ c (String d2 (a ++ _))) by assumption.
      rewrite (pretranslate_other _ c (String d2 a)) by assumption.
      rewrite IH2. reflexivity.
Qed.

Lemma Contains_directive_here (d : ascii) (s : string) :
  Contains (String "%" (String d s)) (directive d) = true.
Proof.
  cbn [Contains prefix directive].
  destruct (ascii_dec "%" "%") as [_|Hne]; [|congruence].
  destruct (ascii_dec d d) as [_|Hne]; [|congruence].
  destruct s; reflexivity.
Qed.

Lemma Contains_tail (c : ascii) (s k : string) :
  Contains (String c s) k = false -> Contains s k = false.
Proof.
  cbn [Contains]. intros H. apply orb_false_iff in H. exact (proj2 H).
Qed.

(** A format in which no directive occurs is left as it is. *)
Lemma pretranslate_spec_no_directive (s : string) :
  (forall k tok, In (k, tok) shellDateFormatRef -> Contains s k = false) ->
  pretranslate_spec s = s.
Proof.
  unfold pretranslate_spec.
  induction s as [|c|c d s IH1 IH2] using string_pair_ind; intros Hno.
  - reflexivity.
  - reflexivity.
  - assert (Htail : forall k tok,
              In (k, tok) shellDateFormatRef -> Contains (String d s) k = false).
    { intros k tok Hin. eapply Contains_tail. eapply Hno. exact Hin. }
    destruct (ascii_dec c "%") as [->|Hc].
    + destruct (directive_token_in shellDateFormatRef d) as [t|] eqn:Ht.
      * exfalso. apply directive_token_in_In in Ht.
        apply Hno in Ht. rewrite Contains_directive_here in Ht. discriminate.
      * rewrite (pretranslate_miss _ _ _ Ht). rewrite (IH2 Htail). reflexivity.
    + rewrite pretranslate_other by assumption. rewrite (IH2 Htail). reflexivity.
Qed.

(** ** More on the translated format *)

Lemma shellDateFormatRef_tokens_ok : tokens_ok shellDateFormatRef.
Proof.
  intros d tok Ht. apply directive_token_in_In in Ht.
  pose proof shellDateFormatRef_ok as Hok. rewrite Forall_forall in Hok.
  destruct (entry_ok_inv _ (Hok _ Ht)) as [_ [_ [_ Htok]]]. exact Htok.
Qed.

Lemma prefix_directive_other (d c : ascii) (x : string) :
  c <> "%"%char -> prefix (directive d) (String c x) = false.
Proof.
  intros Hc. cbn [prefix directive].
  destruct (ascii_dec "%" c) as [<-|_]; [congruence|reflexivity].
Qed.

Lemma prefix_directive_percent (d : ascii) (x : string) :
  prefix (directive d) (String "%" x) = starts_with d x.
Proof.
  cbn [prefix directive].
  destruct (ascii_dec "%" "%") as [_|Hne]; [|congruence].
  destruct x as [|c x]; [reflexivity|]. cbn [prefix starts_with].
  destruct (ascii_dec d c) as [<-|Hne].
  - rewrite Ascii.eqb_refl. destruct x; reflexivity.
  - symmetry. apply Ascii.eqb_neq. congruence.
Qed.

Lemma Contains_after_token (tok y : string) (d : ascii) :
  Contains tok "%" = false ->
  Contains (tok ++ y) (directive d) = Contains y (directive d).
Proof.
  induction tok as [|c tok IH]; intros Htok; [reflexivity|].
  apply Contains_percent_cons in Htok. destruct Htok as [Hc Htok].
  change ((String c tok ++ y)%string) with (String c (tok ++ y)).
  cbn [Contains]. fold (directive d).
  rewrite prefix_directive_other by assumption. cbn [orb]. apply IH. exact Htok.
Qed.

(** No recognised directive is left in a translated format. *)
Lemma pretranslate_spec_leaves_none (d : ascii) (s : string) :
  is_directive_letter d = true ->
  Contains (pretranslate_spec s) (directive d) = false.
Proof.
  intros Hd. unfold pretranslate_spec.
  induction s as [|c|c d2 s IH1 IH2] using string_pair_ind.
  - reflexivity.
  - cbn [pretranslate_with Contains]. destruct (ascii_dec c "%") as [->|Hc].
    + rewrite prefix_directive_percent. reflexivity.
    + rewrite prefix_directive_other by assumption. reflexivity.
  - destruct (ascii_dec c "%") as [->|Hc].
    + destruct (directive_token_in shellDateFormatRef d2) as [tok|] eqn:Ht.
      * rewrite (pretranslate_hit _ _ _ _ Ht).
        rewrite Contains_after_token; [exact IH1|].
        apply token_ok_no_percent. eapply shellDateFormatRef_tokens_ok. exact Ht.
      * rewrite (pretranslate_miss _ _ _ Ht). cbn [Contains].
        rewrite prefix_directive_percent, IH2, orb_false_r.
        apply pretranslate_starts;
          [exact shellDateFormatRef_tokens_ok|exact Hd|].
        cbn [starts_with]. apply Ascii.eqb_neq. intros ->.
        unfold is_directive_letter, directive_token in Hd. rewrite Ht in Hd.
        discriminate Hd.
    + rewrite pretranslate_other by assumption. cbn [Contains].
      rewrite prefix_directive_other by assumption. exact IH2.
Qed.

(** X15: in whatever order the map is visited, no recognised directive
    is left in the format a date node stores, and translating a format
    that has been translated changes nothing. *)
Theorem translation_is_complete_and_idempotent range_order :
  is_range_order range_order ->
  (forall tf k tok,
      In (k, tok) shellDateFormatRef ->
      Contains (shellDateReplace range_order tf) k = false) /\
  (forall tf,
      shellDateReplace range_order (shellDateReplace range_order tf)
      = shellDateReplace range_order tf).
Proof.
  intros Hord.
  assert (Hnone : forall tf k tok,
             In (k, tok) shellDateFormatRef ->
             Contains (pretranslate_spec tf) k = false).
  { intros tf k tok Hin.
    destruct (In_directive_token _ _ Hin) as [d [-> Ht]].
    apply pretranslate_spec_leaves_none.
    unfold is_directive_letter. rewrite Ht. reflexivity. }
  split.
  - intros tf k tok Hin. rewrite shellDateReplace_spec by exact Hord.
    eapply Hnone. exact Hin.
  - intros tf. rewrite !shellDateReplace_spec by exact Hord.
    apply pretranslate_spec_no_directive. intros k tok Hin.
    eapply Hnone. exact Hin.
Qed.

Lemma string_length_append (a b : string) :
  String.length (a ++ b) = String.length a + String.length b.
Proof. induction a as [|c a IH]; [reflexivity|]. cbn. rewrite IH. reflexivity. Qed.

Lemma token_length (d : ascii) (tok : string) :
  directive_token_in shellDateFormatRef d = Some tok ->
  2 <= String.length tok <= 4.
Proof.
  intros Ht. apply directive_token_in_In in Ht.
  unfold shellDateFormatRef in Ht. cbn [In] in Ht.
  repeat (destruct Ht as [Heq|Ht];
          [injection Heq as _ <-; cbn; lia|]).
  contradiction.
Qed.

(** X16: translating never shortens a format and at most doubles its
    length. *)
Theorem translation_length_bounds range_order (tf : string) :
  is_range_order range_order ->
  String.length tf <= String.length (shellDateReplace range_order tf)
  /\ String.length (shellDateReplace range_order tf) <= 2 * String.length tf.
Proof.
  intros Hord. rewrite shellDateReplace_spec by exact Hord.
  unfold pretranslate_spec.
  induction tf as [|c|c d s IH1 IH2] using string_pair_ind.
  - cbn. lia.
  - cbn. lia.
  - destruct (ascii_dec c "%") as [->|Hc].
    + destruct (directive_token_in shellDateFormatRef d) as [tok|] eqn:Ht.
      * rewrite (pretranslate_hit _ _ _ _ Ht), string_length_append.
        pose proof (token_length _ _ Ht). cbn [String.length]. lia.
      * rewrite (pretranslate_miss _ _ _ Ht).
        cbn [String.length] in *. lia.
    + rewrite pretranslate_other by assumption.
      cbn [String.length] in *. lia.
Qed.

End DateFormat.

Section DateNode.
Context `{env : Env}.

(** C6: the directives are replaced once, when the node is built.  In
    whatever order the map is visited, the stored format is the capture with
    every occurrence of [%Y %m %d %H %M %S %b %k] turned into
    [2006 01 02 15 04 05 Jan 15]: an occurrence anywhere in the text becomes
    its token, a text without any of them is unchanged, and so is everything
    between occurrences.  Evaluation hands the stored format to the
    formatter as it is. *)
Theorem date_format_translated_once range_order :
  is_range_order range_order ->
  (forall tf, shellDateReplace range_order tf = pretranslate_spec tf) /\
  (forall a b k tok,
      In (k, tok) shellDateFormatRef ->
      shellDateReplace range_order (a ++ k ++ b)
      = (shellDateReplace range_order a ++ tok ++ shellDateReplace range_order b)%string) /\
  (forall s,
      (forall k tok, In (k, tok) shellDateFormatRef -> Contains s k = false) ->
      shellDateReplace range_order s = s) /\
  shellDateReplace range_order "%Y-%m-%d %H:%M:%S %b %k %Z %%"
  = "2006-01-02 15:04:05 Jan 15 %Z %%" /\
  (forall sh tf rest (s : World),
      Time_IsZero (ShellDateTimestamp s) = false ->
      compactShellDate range_order sh (literal tf :: rest) s
      = (Ok (funcShellDate sh (pretranslate_spec tf)), s)) /\
  (forall sh format ev (s : World),
      Eval_node (funcShellDate sh format) ev s
      = (Ok tt,
         add_out (bytes_of_string (Time_Format (ShellDateTimestamp s) format)) s)).
Proof.
  intros Hord.
  pose proof (shellDateReplace_spec range_order) as Hspec.
  split; [intros tf; apply Hspec; exact Hord|].
  split.
  { intros a b k tok Hin. rewrite !Hspec by exact Hord.
    apply pretranslate_spec_occurrence. exact Hin. }
  split.
  { intros s Hno. rewrite Hspec by exact Hord.
    apply pretranslate_spec_no_directive. exact Hno. }
  split; [rewrite Hspec by exact Hord; reflexivity|].
  split.
  { intros sh tf rest s Hts. rewrite compactShellDate_literal by exact Hts.
    rewrite Hspec by exact Hord. reflexivity. }
  intros sh format ev s. apply Eval_Date_run.
Qed.

(** X14: the order in which Go visits the map does not show: any two
    orders give the same translated format, and [compactShellDate] the
    same result and state on every input. *)
Theorem compaction_ignores_map_order order1 order2 :
  is_range_order order1 ->
  is_range_order order2 ->
  (forall tf, shellDateReplace order1 tf = shellDateReplace order2 tf) /\
  (forall sh v (s : World),
      compactShellDate order1 sh v s = compactShellDate order2 sh v s).
Proof.
  intros H1 H2.
  assert (Heq : forall tf, shellDateReplace order1 tf = shellDateReplace order2 tf).
  { intros tf. rewrite !shellDateReplace_spec by assumption. reflexivity. }
  split; [exact Heq|].
  intros sh v s. unfold compactShellDate, bind, get_ShellDateTimestamp.
  destruct (Time_IsZero (ShellDateTimestamp s)); [reflexivity|].
  unfold index. destruct (nth_error v 0) as [v0|]; [|reflexivity].
  unfold ret. destruct v0; try reflexivity. rewrite Heq. reflexivity.
Qed.

End DateNode.

(** * The statements at the stub environment *)


Lemma rot13_twice_and_non_letters_witness :
  Rot13.rot13 (Rot13.rot13 (bytes_of_string "a-Z 9")) = bytes_of_string "a-Z 9" /\
  (nth_error (bytes_of_string "a-Z 9") 1 = Some "-"%char /\
   Rot13.is_letter "-" = false /\
   nth_error (Rot13.rot13 (bytes_of_string "a-Z 9")) 1 = Some "-"%char).
Proof.
  split.
  - apply (proj1 rot13_twice_and_non_letters).
  - split; [reflexivity|]. split; [reflexivity|].
    apply (proj2 rot13_twice_and_non_letters (bytes_of_string "a-Z 9") 1 "-"%char);
      reflexivity.
Defined.

Lemma dotdot_falls_back_witness :
  falls_back (env := Stub.env)
    (@funcShellAndroidFindFileInDir Stub.env "ls" (varref 1)) "ls" Stub.vars Stub.s0 Stub.s0 /\
  falls_back (env := Stub.env)
    (@funcShellAndroidFindExtFilesUnder Stub.env "find" (literal "top") (literal "src ../lib") ".java")
    "find" Stub.vars Stub.s0 Stub.s0 /\
  falls_back (env := Stub.env)
    (@funcShellAndroidFindJavaResourceFileGroup Stub.env "res" (expr [literal "res/.."]))
    "res" Stub.vars Stub.s0 Stub.s0 /\
  falls_back (env := Stub.env)
    (@funcShellAndroidFindleaves Stub.env "leaves" [literal "out"] (literal "a ../b")
       (literal "Android.mk") 2)
    "leaves" Stub.vars Stub.s0 (after (env := Stub.env) (w_ext Stub.s0) [call_leavesReady] Stub.s0).
Proof.
  pose proof (@dotdot_falls_back Stub.env) as [H1 [H2 [H3 H4]]].
  split; [|split; [|split]].
  - apply (H1 "ls" (varref 1) Stub.vars Stub.s0
             [bytes_of_string " up/../x "] (bytes_of_string " up/../x ") (w_ext Stub.s0));
      reflexivity.
  - apply (H2 "find" (literal "top") (literal "src ../lib") ".java" Stub.vars Stub.s0
             [bytes_of_string "top"; bytes_of_string "src ../lib"]
             (bytes_of_string "top") (bytes_of_string "src ../lib") (w_ext Stub.s0));
      try reflexivity.
    right. apply Exists_cons_tl. apply Exists_cons_hd. reflexivity.
  - apply (H3 "res" (expr [literal "res/.."]) Stub.vars Stub.s0
             [bytes_of_string "res/.."] (bytes_of_string "res/..") (w_ext Stub.s0));
      reflexivity.
  - apply (H4 "leaves" [literal "out"] (literal "a ../b") (literal "Android.mk") 2%Z
             Stub.vars Stub.s0 (w_ext Stub.s0)
             [bytes_of_string "Android.mk"; bytes_of_string "a ../b"; bytes_of_string "out"]
             (bytes_of_string "Android.mk") (bytes_of_string "a ../b") (w_ext Stub.s0));
      try reflexivity.
    apply Exists_cons_tl. apply Exists_cons_hd. reflexivity.
Defined.


Lemma not_ready_falls_back_witness :
  falls_back (env := Stub.env)
    (@funcShellAndroidFindFileInDir Stub.env "ls" (varref 2)) "ls" Stub.vars
    Stub.s_cold (after (env := Stub.env) (w_ext Stub.s_cold) [call_ready] Stub.s_cold) /\
  falls_back (env := Stub.env)
    (@funcShellAndroidFindExtFilesUnder Stub.env "find" (literal "top") (literal "src gen") ".proto")
    "find" Stub.vars
    Stub.s_cold (after (env := Stub.env) (w_ext Stub.s_cold) [call_ready] Stub.s_cold) /\
  falls_back (env := Stub.env)
    (@funcShellAndroidFindJavaResourceFileGroup Stub.env "res" (varref 3)) "res" Stub.vars
    Stub.s_cold (after (env := Stub.env) (w_ext Stub.s_cold) [call_ready] Stub.s_cold) /\
  falls_back (env := Stub.env)
    (@funcShellAndroidFindleaves Stub.env "leaves" [literal "out"] (literal "a b")
       (literal "Android.mk") (-1))
    "leaves" Stub.vars
    Stub.s_cold (after (env := Stub.env) (w_ext Stub.s_cold) [call_leavesReady] Stub.s_cold).
Proof.
  pose proof (@not_ready_falls_back Stub.env) as [H1 [H2 [H3 H4]]].
  split; [|split; [|split]].
  - apply (H1 "ls" (varref 2) Stub.vars Stub.s_cold
             [bytes_of_string "assets"] (bytes_of_string "assets")
             (w_ext Stub.s_cold) (w_ext Stub.s_cold));
      reflexivity.
  - apply (H2 "find" (literal "top") (literal "src gen") ".proto" Stub.vars Stub.s_cold
             [bytes_of_string "top"; bytes_of_string "src gen"]
             (bytes_of_string "top") (bytes_of_string "src gen")
             (w_ext Stub.s_cold) (w_ext Stub.s_cold));
      try reflexivity.
    repeat constructor.
  - apply (H3 "res" (varref 3) Stub.vars Stub.s_cold
             [bytes_of_string "assets"] (bytes_of_string "assets")
             (w_ext Stub.s_cold) (w_ext Stub.s_cold));
      reflexivity.
  - apply (H4 "leaves" [literal "out"] (literal "a b") (literal "Android.mk") (-1)%Z
             Stub.vars Stub.s_cold (w_ext Stub.s_cold)).
    reflexivity.
Defined.

Lemma ext_files_all_or_nothing_witness :
  Eval_node (env := Stub.env)
    (@funcShellAndroidFindExtFilesUnder Stub.env "find" (literal "top")
       (literal "src bad gen") ".java")
    Stub.vars Stub.s0
  = shell_Eval (env := Stub.env) "find" Stub.vars
      (after (env := Stub.env) (w_ext Stub.s0)
         [call_ready;
          call_findExtFilesUnder "top" "src" ".java";
          call_findExtFilesUnder "top" "bad" ".java"]
         Stub.s0) /\
  Eval_node (env := Stub.env)
    (@funcShellAndroidFindExtFilesUnder Stub.env "find" (literal "top")
       (literal "src gen") ".java")
    Stub.vars Stub.s0
  = (Ok tt,
     add_out (env := Stub.env) (bytes_of_string "src/A.java gen/A.java")
       (after (env := Stub.env) (w_ext Stub.s0)
          [call_ready;
           call_findExtFilesUnder "top" "src" ".java";
           call_findExtFilesUnder "top" "gen" ".java"]
          Stub.s0)).
Proof.
  split.
  - refine (proj1 (@ext_files_all_or_nothing Stub.env
             "find" (literal "top") (literal "src bad gen") ".java" Stub.vars Stub.s0
             [bytes_of_string "top"; bytes_of_string "src bad gen"]
             (bytes_of_string "top") (bytes_of_string "src bad gen")
             (w_ext Stub.s0) (w_ext Stub.s0)
             eq_refl eq_refl eq_refl eq_refl eq_refl)
           ["src"] "bad" ["gen"] true (bytes_of_string "src/A.java") (w_ext Stub.s0)
           [] true (w_ext Stub.s0) eq_refl _ eq_refl).
    eapply all_succeed_cons; [reflexivity|]. apply all_succeed_nil.
  - refine (proj2 (@ext_files_all_or_nothing Stub.env
             "find" (literal "top") (literal "src gen") ".java" Stub.vars Stub.s0
             [bytes_of_string "top"; bytes_of_string "src gen"]
             (bytes_of_string "top") (bytes_of_string "src gen")
             (w_ext Stub.s0) (w_ext Stub.s0)
             eq_refl eq_refl eq_refl eq_refl eq_refl)
           true (bytes_of_string "src/A.java gen/A.java") (w_ext Stub.s0) _).
    eapply all_succeed_cons; [reflexivity|].
    eapply all_succeed_cons; [reflexivity|]. apply all_succeed_nil.
Defined.

Lemma find_subdir_assets_compares_captures_witness :
  (Stub.resolve_all Stub.vars [varref 2] = Stub.resolve_all Stub.vars [varref 3] /\
   Value_eq (varref 2) (varref 3) = Some false /\
   compact_find_subdir_assets (env := Stub.env) "ls" [varref 2; varref 3] Stub.s0
   = (Ok (@origShell Stub.env "ls"), Stub.s0)) /\
  (Value_eq (varref 2) (varref 2) = Some true /\
   compact_find_subdir_assets (env := Stub.env) "ls" [varref 2; varref 2] Stub.s0
   = (Ok (@funcShellAndroidFindFileInDir Stub.env "ls" (varref 2)),
      after (env := Stub.env) (w_ext Stub.s0) [call_init] Stub.s0)) /\
  (Value_eq (paramref 1) (paramref 1) = Some true) /\
  (2 <> 3 /\
   compact_find_subdir_assets (env := Stub.env) "ls" [varref 2; varref 3; literal "x"] Stub.s0
   = (Ok (@origShell Stub.env "ls"), Stub.s0)).
Proof.
  pose proof (@find_subdir_assets_compares_captures Stub.env) as [H1 [H2 [H3 H4]]].
  split; [|split; [|split]].
  - split; [reflexivity|]. split; [reflexivity|].
    apply (H1 "ls" (varref 2) (varref 3) [] Stub.s0). reflexivity.
  - split; [reflexivity|].
    apply (H2 "ls" (varref 2) (varref 2) [] Stub.s0). reflexivity.
  - apply (H3 "ls" (paramref 1) (paramref 1) [] Stub.s0
             (after (env := Stub.env) (w_ext Stub.s0) [call_init] Stub.s0)
             "ls" (paramref 1)).
    reflexivity.
  - split; [discriminate|].
    apply (H4 "ls" 2 3 [literal "x"] Stub.s0). discriminate.
Defined.

Lemma date_format_translated_once_witness :
  is_range_order (rev shellDateFormatRef) /\
  shellDateReplace (rev shellDateFormatRef) "%Y-%m-%d" = "2006-01-02" /\
  compactShellDate (env := Stub.env) (rev shellDateFormatRef) "date"
    [literal "%H:%M %p"] Stub.s0
  = (Ok (@funcShellDate Stub.env "date" "15:04 %p"), Stub.s0).
Proof.
  assert (Hord : is_range_order (rev shellDateFormatRef)) by apply Permutation_rev.
  pose proof (@date_format_translated_once Stub.env (rev shellDateFormatRef) Hord)
    as [H1 [_ [_ [_ [H5 _]]]]].
  split; [exact Hord|]. split.
  - exact (H1 "%Y-%m-%d").
  - exact (H5 "date" "%H:%M %p" [] Stub.s0 eq_refl).
Defined.

Lemma rot13_shifts_by_13_witness :
  (Rot13.is_lower "q" = true /\ Rot13.rot13_byte "q" = "d"%char) /\
  (Rot13.is_upper "H" = true /\ Rot13.rot13_byte "H" = "U"%char) /\
  Eval_node (env := Stub.env) (@funcShellAndroidRot13 Stub.env "echo" (varref 4))
    Stub.vars Stub.s0
  = (Ok tt, add_out (env := Stub.env) (bytes_of_string "Uryyb") Stub.s0) /\
  (nth_error (bytes_of_string "a-b Hello") 2 = Some "b"%char /\
   nth_error (Rot13.rot13 (bytes_of_string "a-b Hello")) 2 = Some "o"%char) /\
  (nth_error (bytes_of_string "a-b Hello") 4 = Some "H"%char /\
   nth_error (Rot13.rot13 (bytes_of_string "a-b Hello")) 4 = Some "U"%char) /\
  w_out (snd (Eval_node (env := Stub.env)
                (@funcShellAndroidRot13 Stub.env "echo" (literal "a-b Hello"))
                Stub.vars Stub.s0))
  = bytes_of_string "n-o Uryyb".
Proof.
  pose proof (@rot13_shifts_by_13 Stub.env) as [H1 [H2 [H3 [_ [H5 [H6 H7]]]]]].
  split; [|split; [|split; [|split; [|split]]]].
  - split; [reflexivity|].
    pose proof (H1 "q"%char eq_refl) as H.
    rewrite <- (ascii_N_embedding (Rot13.rot13_byte "q")), H. reflexivity.
  - split; [reflexivity|].
    pose proof (H2 "H"%char eq_refl) as H.
    rewrite <- (ascii_N_embedding (Rot13.rot13_byte "H")), H. reflexivity.
  - apply (H3 "echo" (varref 4) Stub.vars Stub.s0 [] (w_ext Stub.s0)). reflexivity.
  - split; [reflexivity|].
    exact (H5 (bytes_of_string "a-b Hello") 2 "b"%char eq_refl eq_refl).
  - split; [reflexivity|].
    exact (H6 (bytes_of_string "a-b Hello") 4 "H"%char eq_refl eq_refl).
  - exact (proj2 (H7 "echo" (literal "a-b Hello") Stub.vars Stub.s0
                    (bytes_of_string "a-b Hello") [] (w_ext Stub.s0) eq_refl)).
Defined.

Lemma findleaves_checks_dirlist_only_witness :
  has_dotdot (bytes_of_string "../Android.mk") = true /\
  has_dotdot (bytes_of_string "../out") = true /\
  Eval_node (env := Stub.env)
    (@funcShellAndroidFindleaves Stub.env "leaves"
       [literal " ../out"; literal ".repo"] (literal "a b")
       (literal "../Android.mk") 2)
    Stub.vars Stub.s0
  = (Ok tt,
     wrote (env := Stub.env)
       (bytes_of_string "a/../Android.mk b/../Android.mk") (w_ext Stub.s0)
       [call_leavesReady;
        call_findleaves "a" "../Android.mk" ["../out"; ".repo"] 2;
        call_findleaves "b" "../Android.mk" ["../out"; ".repo"] 2]
       Stub.s0).
Proof.
  split; [reflexivity|]. split; [reflexivity|].
  refine (proj1 (@findleaves_checks_dirlist_only Stub.env
           "leaves" [literal " ../out"; literal ".repo"] (literal "a b")
           (literal "../Android.mk") 2%Z Stub.vars Stub.s0 (w_ext Stub.s0)
           [bytes_of_string "../Android.mk"; bytes_of_string "a b";
            bytes_of_string " ../out"; bytes_of_string ".repo"]
           (bytes_of_string "../Android.mk") (bytes_of_string "a b")
           (w_ext Stub.s0) eq_refl eq_refl eq_refl eq_refl _)).
  repeat constructor.
Defined.

Lemma date_eval_depends_on_timestamp_and_format_witness :
  ShellDateTimestamp Stub.s0 = ShellDateTimestamp Stub.s_cold /\
  exists o,
    o = bytes_of_string "2006-01-02" /\
    Eval_node (env := Stub.env) (@funcShellDate Stub.env "date" "2006-01-02")
      Stub.vars Stub.s0
    = (Ok tt, add_out (env := Stub.env) o Stub.s0) /\
    Eval_node (env := Stub.env) (@funcShellDate Stub.env "date" "2006-01-02")
      [] Stub.s_cold
    = (Ok tt, add_out (env := Stub.env) o Stub.s_cold).
Proof.
  split; [reflexivity|].
  exact (@date_eval_depends_on_timestamp_and_format Stub.env
           "date" "2006-01-02" Stub.vars [] Stub.s0 Stub.s_cold eq_refl).
Defined.

Lemma compactShellDate_cases_witness :
  (compactShellDate (env := Stub.env) shellDateFormatRef "date"
     [literal "%Y"] (Stub.world true true 0)
   = (Ok (@origShell Stub.env "date"), Stub.world true true 0)) /\
  (compactShellDate (env := Stub.env) shellDateFormatRef "date"
     [varref 2] Stub.s0
   = (Ok (@origShell Stub.env "date"), Stub.s0)) /\
  (compactShellDate (env := Stub.env) shellDateFormatRef "date"
     [literal "%Y%m%d"] Stub.s0
   = (Ok (@funcShellDate Stub.env "date" "20060102"), Stub.s0)).
Proof.
  pose proof (@compactShellDate_cases Stub.env shellDateFormatRef "date")
    as [H1 [H2 H3]].
  split; [|split].
  - apply (H1 [literal "%Y"] (Stub.world true true 0)). reflexivity.
  - apply (H2 (varref 2) [] Stub.s0). intros tf. discriminate.
  - apply (H3 "%Y%m%d" [] Stub.s0). reflexivity.
Defined.

Lemma eval_keeps_protocol_witness :
  exists cs,
    w_calls (snd (Eval_node (env := Stub.env)
                    (@funcShellAndroidFindExtFilesUnder Stub.env "find"
                       (literal "top") (literal "src bad gen") ".java")
                    Stub.vars Stub.s0))
    = w_calls Stub.s0 ++ cs /\
    eval_protocol cs = true /\
    ~ In call_init cs /\
    (existsb is_query cs = true ->
     exists cs', cs = call_ready :: cs' \/ cs = call_leavesReady :: cs') /\
    (forall pre post,
        cs = pre ++ call_original :: post ->
        post = [] /\ ~ In call_original pre).
Proof.
  exact (@eval_keeps_protocol Stub.env
           (@funcShellAndroidFindExtFilesUnder Stub.env "find"
              (literal "top") (literal "src bad gen") ".java")
           Stub.vars Stub.s0).
Defined.

Lemma resolution_error_is_returned_witness :
  Eval_node (env := Stub.env) (@funcShellAndroidRot13 Stub.env "echo" (varref 9))
    Stub.vars Stub.s0
  = (Err "undefined", Stub.s0) /\
  Eval_node (env := Stub.env) (@funcShellAndroidFindFileInDir Stub.env "ls" (varref 9))
    Stub.vars Stub.s0
  = (Err "undefined", Stub.s0) /\
  Eval_node (env := Stub.env)
    (@funcShellAndroidFindExtFilesUnder Stub.env "find" (literal "top") (varref 9) ".java")
    Stub.vars Stub.s0
  = (Err "undefined", Stub.s0) /\
  Eval_node (env := Stub.env)
    (@funcShellAndroidFindJavaResourceFileGroup Stub.env "res" (varref 9))
    Stub.vars Stub.s0
  = (Err "undefined", Stub.s0) /\
  Eval_node (env := Stub.env)
    (@funcShellAndroidFindleaves Stub.env "leaves" [varref 9] (literal "a b")
       (literal "Android.mk") 2)
    Stub.vars Stub.s0
  = (Err "undefined",
     after (env := Stub.env) (w_ext Stub.s0) [call_leavesReady] Stub.s0).
Proof.
  pose proof (@resolution_error_is_returned Stub.env) as [H1 [H2 [H3 [H4 H5]]]].
  split; [|split; [|split; [|split]]].
  - apply (H1 "echo" (varref 9) Stub.vars Stub.s0 "undefined" (w_ext Stub.s0)).
    reflexivity.
  - apply (H2 "ls" (varref 9) Stub.vars Stub.s0 "undefined" (w_ext Stub.s0)).
    reflexivity.
  - apply (H3 "find" (literal "top") (varref 9) ".java" Stub.vars Stub.s0
             "undefined" (w_ext Stub.s0)).
    reflexivity.
  - apply (H4 "res" (varref 9) Stub.vars Stub.s0 "undefined" (w_ext Stub.s0)).
    reflexivity.
  - apply (H5 "leaves" [varref 9] (literal "a b") (literal "Android.mk") 2%Z
             Stub.vars Stub.s0 (w_ext Stub.s0) "undefined" (w_ext Stub.s0));
      reflexivity.
Defined.

Lemma one_directory_native_path_witness :
  Eval_node (env := Stub.env) (@funcShellAndroidFindFileInDir Stub.env "ls" (varref 2))
    Stub.vars Stub.s0
  = (Ok tt,
     wrote (env := Stub.env) (bytes_of_string "assets/f") (w_ext Stub.s0)
       [call_ready; call_findInDir "assets"] Stub.s0) /\
  Eval_node (env := Stub.env)
    (@funcShellAndroidFindJavaResourceFileGroup Stub.env "res" (literal " assets "))
    Stub.vars Stub.s0
  = (Ok tt,
     wrote (env := Stub.env) (bytes_of_string "assets/r") (w_ext Stub.s0)
       [call_ready; call_findJavaResourceFileGroup "assets"] Stub.s0).
Proof.
  pose proof (@one_directory_native_path Stub.env) as [H1 H2].
  split.
  - apply (H1 "ls" (varref 2) Stub.vars Stub.s0
             [bytes_of_string "assets"] (bytes_of_string "assets")
             (w_ext Stub.s0) (w_ext Stub.s0)
             (bytes_of_string "assets/f") true (w_ext Stub.s0));
      reflexivity.
  - apply (H2 "res" (literal " assets ") Stub.vars Stub.s0
             [bytes_of_string " assets "] (bytes_of_string " assets ")
             (w_ext Stub.s0) (w_ext Stub.s0)
             (bytes_of_string "assets/r") true (w_ext Stub.s0));
      reflexivity.
Defined.

Lemma findleaves_native_path_witness :
  Eval_node (env := Stub.env)
    (@funcShellAndroidFindleaves Stub.env "leaves"
       [literal "out"; literal ".repo"; literal ".git"] (literal "a b")
       (literal "Android.mk") (-1))
    Stub.vars Stub.s0
  = (Ok tt,
     wrote (env := Stub.env) (bytes_of_string "a/Android.mk b/Android.mk")
       (w_ext Stub.s0)
       [call_leavesReady;
        call_findleaves "a" "Android.mk" ["out"; ".repo"; ".git"] (-1);
        call_findleaves "b" "Android.mk" ["out"; ".repo"; ".git"] (-1)]
       Stub.s0).
Proof.
  apply (@findleaves_native_path Stub.env
           "leaves" [literal "out"; literal ".repo"; literal ".git"] (literal "a b")
           (literal "Android.mk") (-1)%Z Stub.vars Stub.s0 (w_ext Stub.s0)
           [bytes_of_string "Android.mk"; bytes_of_string "a b";
            bytes_of_string "out"; bytes_of_string ".repo"; bytes_of_string ".git"]
           (bytes_of_string "Android.mk") (bytes_of_string "a b") (w_ext Stub.s0));
    reflexivity.
Defined.

Lemma empty_list_is_native_witness :
  Eval_node (env := Stub.env)
    (@funcShellAndroidFindExtFilesUnder Stub.env "find" (literal "top") (literal "  ") ".java")
    Stub.vars Stub.s0
  = (Ok tt, after (env := Stub.env) (w_ext Stub.s0) [call_ready] Stub.s0) /\
  Eval_node (env := Stub.env)
    (@funcShellAndroidFindleaves Stub.env "leaves" [literal "out"] (literal "")
       (literal "Android.mk") 2)
    Stub.vars Stub.s0
  = (Ok tt, after (env := Stub.env) (w_ext Stub.s0) [call_leavesReady] Stub.s0).
Proof.
  pose proof (@empty_list_is_native Stub.env) as [H1 H2].
  split.
  - apply (H1 "find" (literal "top") (literal "  ") ".java" Stub.vars Stub.s0
             [bytes_of_string "top"; bytes_of_string "  "]
             (bytes_of_string "top") (bytes_of_string "  ")
             (w_ext Stub.s0) (w_ext Stub.s0));
      reflexivity.
  - apply (H2 "leaves" [literal "out"] (literal "") (literal "Android.mk") 2%Z
             Stub.vars Stub.s0 (w_ext Stub.s0)
             [bytes_of_string "Android.mk"; bytes_of_string ""; bytes_of_string "out"]
             (bytes_of_string "Android.mk") (bytes_of_string "") (w_ext Stub.s0));
      reflexivity.
Defined.

Lemma compactors_keep_the_command_witness :
  node_sh (env := Stub.env)
    (@funcShellAndroidFindExtFilesUnder Stub.env "find" (varref 2) (varref 3) ".java")
  = "find" /\
  w_out (after (env := Stub.env) (w_ext Stub.s0) [call_init] Stub.s0) = w_out Stub.s0 /\
  after (env := Stub.env) (w_ext Stub.s0) [call_init] Stub.s0
  = after (env := Stub.env) (w_ext Stub.s0) [call_init] Stub.s0.
Proof.
  exact (@compactors_keep_the_command Stub.env shellDateFormatRef
           (nth 2 (@shBuiltins Stub.env shellDateFormatRef)
              (@mkBuiltin Stub.env "" [] (compact_rot13 (env := Stub.env))))
           (or_intror (or_intror (or_introl eq_refl)))
           "find" [varref 2; varref 3] Stub.s0
           (after (env := Stub.env) (w_ext Stub.s0) [call_init] Stub.s0)
           (@funcShellAndroidFindExtFilesUnder Stub.env "find" (varref 2) (varref 3) ".java")
           eq_refl).
Defined.

Lemma compactors_fit_their_templates_witness :
  exists n s',
    compact_find_subdir_assets (env := Stub.env) "ls" [varref 2; varref 2] Stub.s0
    = (Ok n, s').
Proof.
  exact (@compactors_fit_their_templates Stub.env shellDateFormatRef
           (nth 1 (@shBuiltins Stub.env shellDateFormatRef)
              (@mkBuiltin Stub.env "" [] (compact_rot13 (env := Stub.env))))
           (or_intror (or_introl eq_refl))
           "ls" [varref 2; varref 2] Stub.s0 eq_refl eq_refl).
Defined.

Lemma findleaves_compactors_are_gated_witness :
  compact_subdir_cleanspecs (env := Stub.env_bare) "leaves" [varref 2] Stub.s_bare
  = (Ok (@origShell Stub.env_bare "leaves"), Stub.s_bare) /\
  compact_first_makefiles_under (env := Stub.env_bare) "leaves"
    [varref 2; varref 3] Stub.s_bare
  = (Ok (@origShell Stub.env_bare "leaves"), Stub.s_bare) /\
  compact_subdir_cleanspecs (env := Stub.env) "leaves" [varref 2] Stub.s0
  = (Ok (@funcShellAndroidFindleaves Stub.env "leaves"
           [varref 2; literal ".repo"; literal ".git"]
           (literal ".") (literal "CleanSpec.mk") (-1)),
     after (env := Stub.env) (w_ext Stub.s0) [call_init] Stub.s0) /\
  compact_first_makefiles_under (env := Stub.env) "leaves"
    [varref 2; varref 3] Stub.s0
  = (Ok (@funcShellAndroidFindleaves Stub.env "leaves"
           [varref 2; literal ".repo"; literal ".git"]
           (varref 3) (literal "Android.mk") 2),
     after (env := Stub.env) (w_ext Stub.s0) [call_init] Stub.s0).
Proof.
  pose proof (@findleaves_compactors_are_gated Stub.env_bare) as [B1 [B2 _]].
  pose proof (@findleaves_compactors_are_gated Stub.env) as [_ [_ [H3 H4]]].
  split; [|split; [|split]].
  - apply (B1 (fun H => H) "leaves" [varref 2] Stub.s_bare).
  - apply (proj2 (B2 (fun H => H) "leaves" [varref 2; varref 3] Stub.s_bare)).
  - apply (H3 (or_introl eq_refl) "leaves" (varref 2) [] Stub.s0).
  - apply (proj2 (H4 (or_intror (or_introl eq_refl)) "leaves"
                    (varref 2) (varref 3) [] Stub.s0)).
Defined.

Lemma rot13_keeps_case_and_moves_letters_witness :
  Rot13.is_letter "a" = true /\ Rot13.rot13_byte "a" <> "a"%char.
Proof.
  split; [reflexivity|].
  apply (proj2 (proj2 (rot13_keeps_case_and_moves_letters "a"%char))).
  reflexivity.
Defined.

Lemma rot13_is_a_bijection_witness :
  Rot13.rot13 (bytes_of_string "Hello") = Rot13.rot13 (bytes_of_string "Hello") /\
  bytes_of_string "Hello" = bytes_of_string "Hello".
Proof.
  split; [reflexivity|].
  apply (proj1 (proj2 (proj2 rot13_is_a_bijection))
           (bytes_of_string "Hello") (bytes_of_string "Hello")).
  reflexivity.
Defined.

Lemma rot13_node_round_trip_witness :
  Eval_node (env := Stub.env) (@funcShellAndroidRot13 Stub.env "echo" (varref 4))
    Stub.vars Stub.s0
  = (Ok tt, add_out (env := Stub.env) (bytes_of_string "Uryyb") Stub.s0) /\
  Eval_node (env := Stub.env) (@funcShellAndroidRot13 Stub.env "echo" (literal "Uryyb"))
    [] Stub.s_cold
  = (Ok tt, add_out (env := Stub.env) (bytes_of_string "Hello") Stub.s_cold).
Proof.
  apply (@rot13_node_round_trip Stub.env
           "echo" (varref 4) Stub.vars Stub.s0
           "echo" (literal "Uryyb") [] Stub.s_cold
           (bytes_of_string "Hello") [] [] (w_ext Stub.s0) (w_ext Stub.s_cold));
    reflexivity.
Defined.

Lemma has_dotdot_iff_witness :
  has_dotdot (bytes_of_string "a..b") = true /\
  exists a b, string_of_bytes (bytes_of_string "../x") = (a ++ ".." ++ b)%string.
Proof.
  split.
  - apply (proj2 (proj2 has_dotdot_iff (bytes_of_string "a..b"))).
    exists "a"%string, "b"%string. reflexivity.
  - apply (proj1 (proj2 has_dotdot_iff (bytes_of_string "../x"))).
    reflexivity.
Defined.

Lemma compaction_ignores_map_order_witness :
  is_range_order shellDateFormatRef /\
  is_range_order (rev shellDateFormatRef) /\
  shellDateReplace shellDateFormatRef "%d/%m/%Y"
  = shellDateReplace (rev shellDateFormatRef) "%d/%m/%Y".
Proof.
  assert (H1 : is_range_order shellDateFormatRef) by apply Permutation_refl.
  assert (H2 : is_range_order (rev shellDateFormatRef)) by apply Permutation_rev.
  split; [exact H1|]. split; [exact H2|].
  exact (proj1 (@compaction_ignores_map_order Stub.env _ _ H1 H2) "%d/%m/%Y").
Defined.

Lemma translation_is_complete_and_idempotent_witness :
  is_range_order (rev shellDateFormatRef) /\
  Contains (shellDateReplace (rev shellDateFormatRef) "%%Y-%m") "%m" = false /\
  shellDateReplace (rev shellDateFormatRef)
    (shellDateReplace (rev shellDateFormatRef) "%%Y-%m")
  = shellDateReplace (rev shellDateFormatRef) "%%Y-%m".
Proof.
  assert (H : is_range_order (rev shellDateFormatRef)) by apply Permutation_rev.
  pose proof (translation_is_complete_and_idempotent _ H) as [H1 H2].
  split; [exact H|]. split.
  - apply (H1 "%%Y-%m" "%m" "01"). right. left. reflexivity.
  - apply H2.
Defined.

Lemma translation_length_bounds_witness :
  is_range_order (rev shellDateFormatRef) /\
  String.length "%Y%b" <= String.length (shellDateReplace (rev shellDateFormatRef) "%Y%b")
  /\ String.length (shellDateReplace (rev shellDateFormatRef) "%Y%b")
     <= 2 * String.length "%Y%b".
Proof.
  assert (H : is_range_order (rev shellDateFormatRef)) by apply Permutation_rev.
  split; [exact H|].
  exact (translation_length_bounds _ "%Y%b" H).
Defined.

Lemma word_scans_agree_witness :
  snd (scan_roots [bytes_of_string "a"; bytes_of_string "../b"; bytes_of_string "a"]) = true /\
  scan_dirs [bytes_of_string "a"; bytes_of_string "../b"; bytes_of_string "a"] [] = None /\
  fst (scan_roots [bytes_of_string "a"; bytes_of_string "../b"; bytes_of_string "a"])
  = ["a"; "../b"; "a"]%string.
Proof.
  pose proof (word_scans_agree
                [bytes_of_string "a"; bytes_of_string "../b"; bytes_of_string "a"])
    as [H1 [_ [H3 _]]].
  assert (Hflag : snd (scan_roots
                         [bytes_of_string "a"; bytes_of_string "../b";
                          bytes_of_string "a"]) = true)
    by (rewrite H1; reflexivity).
  split; [exact Hflag|]. split; [exact (proj1 H3 Hflag)|].
  rewrite H1. reflexivity.
Defined.
